(** * The catalog store of the sales assistant

    A shallow embedding of [tools/product_tools.py]: the CSV-backed product
    catalog with its loader ([_load_products_df]), its persister
    ([_save_products_df]), the three read operations
    ([search_product_by_name_internal], [filter_products_internal],
    [check_inventory_internal]) and the one mutating operation
    ([checkout_internal]).

    Modelling decisions, all at the boundary to pandas and the operating
    system:

    - A pandas scalar is a [cell]: an [int64] ([VInt]), a finite [float64]
      given by the rational it denotes ([VFloat]), a missing value or NaN
      ([VNaN]) or a Python [str] ([VStr]).  Infinities, booleans and integer
      overflow are outside the model.  Arithmetic on floats is exact
      arithmetic on rationals.
    - A [DataFrame] is its list of column labels and its rows in index
      order; the index is the [RangeIndex] that [pd.read_csv] creates, so a
      label is a position.  A row maps column labels to cells.
    - The file at [PRODUCTS_CSV] is modelled by the frame [pd.read_csv]
      returns on it ([None] when there is no file).  The reader has already
      turned every field it can read as a number into [VInt] or [VFloat]; a
      [VStr] is text that is not a number.  Writing a frame with
      [to_csv(index=False)] and reading it back is modelled as storing the
      frame: the change of dtype that a column of numeric-looking text can
      undergo on the way is undone by the [astype(str)] of the loader.
    - Python strings are ASCII text; characters above 127 are left alone by
      the case conversions.
    - [os.urandom(4)] is an argument of the checkout: the bytes it returns
      in that call. *)

From Stdlib Require Import Ascii String ZArith QArith Lia Lqa Sorted.
From stdpp Require Import gmap strings list fin_maps pretty sorting.

Open Scope string_scope.

(** ** Python string methods *)

Module PyStr.

(** [str.isspace] on one ASCII character: tab to carriage return, the four
    separators 28 to 31, and the space. *)
Definition is_space (c : ascii) : bool :=
  let n := N_of_ascii c in
  ((9 <=? n)%N && (n <=? 13)%N) || ((28 <=? n)%N && (n <=? 32)%N).

Definition upper_char (c : ascii) : ascii :=
  let n := N_of_ascii c in
  if ((97 <=? n)%N && (n <=? 122)%N) then ascii_of_N (n - 32) else c.

Definition lower_char (c : ascii) : ascii :=
  let n := N_of_ascii c in
  if ((65 <=? n)%N && (n <=? 90)%N) then ascii_of_N (n + 32) else c.

Fixpoint map_chars (f : ascii → ascii) (s : string) : string :=
  match s with
  | EmptyString => EmptyString
  | String c s' => String (f c) (map_chars f s')
  end.

(** [s.upper()] and [s.lower()] *)
Definition upper : string → string := map_chars upper_char.
Definition lower : string → string := map_chars lower_char.

Fixpoint lstrip (s : string) : string :=
  match s with
  | EmptyString => EmptyString
  | String c s' => if is_space c then lstrip s' else s
  end.

Fixpoint rstrip (s : string) : string :=
  match s with
  | EmptyString => EmptyString
  | String c s' =>
      match rstrip s' with
      | EmptyString => if is_space c then EmptyString else String c EmptyString
      | t => String c t
      end
  end.

(** [s.strip()] *)
Definition strip (s : string) : string := rstrip (lstrip s).

(** Truth value of a string: [if s:] holds unless [s] is empty. *)
Definition truthy (s : string) : bool :=
  match s with EmptyString => false | String _ _ => true end.

Fixpoint all_chars (p : ascii → bool) (s : string) : bool :=
  match s with
  | EmptyString => true
  | String c s' => p c && all_chars p s'
  end.

(** [x in s] for strings: [x] occurs in [s] as a contiguous substring. *)
Definition substring_of (x s : string) : Prop :=
  ∃ pre post : string, s = pre +:+ x +:+ post.

End PyStr.

(** ** pandas values *)

Inductive cell : Type :=
| VInt (z : Z)
| VFloat (q : Q)
| VNaN
| VStr (s : string).

(** A Python [float]: NaN or a finite value. *)
Inductive pyfloat : Type :=
| FNaN
| F (q : Q).

(** [repr] of a finite float, used when [astype(str)] meets a float in a
    text column.  Python prints the shortest decimal that reads back as the
    same [float64]; the development is parametric in this function. *)
Class FloatRepr := float_repr : Q → string.

Abbreviation row := (gmap string cell).

(** A frame has its column labels and its rows in index order.  A row has a
    cell for each label; a label it lacks reads as NaN ([at_col]). *)
Record DataFrame : Type := {
  columns : list string;
  rows : list row
}.

(** What went wrong when a call raises instead of returning:
    - [FileNotFoundError], from [pd.read_csv];
    - [MissingColumns missing], the [ValueError] of the loader, whose message
      shows the set [missing];
    - [UnableToParse], the [ValueError] of [pd.to_numeric(errors="raise")];
    - [IntCastingNaNError], from [astype(int)] on a missing value.
    [OutsideModel] is no exception of the program: it marks a call whose
    pattern uses a part of Python's [re] that the embedding leaves out. *)
Inductive exn : Type :=
| FileNotFoundError
| MissingColumns (missing : list string)
| UnableToParse
| IntCastingNaNError
| OutsideModel.

Inductive result (A : Type) : Type :=
| Ok (a : A)
| Raise (e : exn).
Arguments Ok {A} a.
Arguments Raise {A} e.

Global Instance result_bind : MBind result := λ A B k m,
  match m with
  | Ok a => k a
  | Raise e => Raise e
  end.

Fixpoint traverse {A B} (f : A → result B) (l : list A) : result (list B) :=
  match l with
  | [] => Ok []
  | a :: l' =>
      b ← f a;
      bs ← traverse f l';
      Ok (b :: bs)
  end.

(** [r[c]]: the cell of row [r] in column [c]. *)
Definition at_col (c : string) (r : row) : cell := default VNaN (r !! c).

(** [df[c] = f(df[c])], where [f] may raise on a cell. *)
Definition assign_column (c : string) (f : cell → result cell) (df : DataFrame)
  : result DataFrame :=
  rs ← traverse (λ r, v ← f (at_col c r); Ok (<[c := v]> r)) (rows df);
  Ok {| columns := columns df; rows := rs |}.

(** [float(x)] truncated by [int(...)]: towards zero. *)
Definition Qtrunc (q : Q) : Z := Z.quot (Qnum q) (Zpos (Qden q)).

(** [pd.to_numeric(col, errors="raise")] on one cell. *)
Definition to_numeric (v : cell) : result cell :=
  match v with
  | VStr _ => Raise UnableToParse
  | _ => Ok v
  end.

(** [col.astype(int)] on one cell. *)
Definition astype_int (v : cell) : result cell :=
  match v with
  | VInt z => Ok (VInt z)
  | VFloat q => Ok (VInt (Qtrunc q))
  | VNaN => Raise IntCastingNaNError
  | VStr _ => Raise UnableToParse
  end.

(** [pd.to_numeric(col, errors="raise").astype(int)] on one cell. *)
Definition inventory_cast (v : cell) : result cell :=
  n ← to_numeric v; astype_int n.

(** [col.astype(str)] on one cell. *)
Definition astype_str `{FloatRepr} (v : cell) : result cell :=
  match v with
  | VStr s => Ok (VStr s)
  | VInt z => Ok (VStr (pretty z))
  | VFloat q => Ok (VStr (float_repr q))
  | VNaN => Ok (VStr "nan")
  end.

(** ** Loading and persisting *)

(** The content of the file at [PRODUCTS_CSV]. *)
Definition store : Type := option DataFrame.

Definition required_cols : list string :=
  ["product_id"; "product_name"; "product_description"; "type";
   "price"; "rating"; "inventory_count"].

Definition pd_read_csv (st : store) : result DataFrame :=
  match st with
  | None => Raise FileNotFoundError
  | Some df => Ok df
  end.

Definition _load_products_df `{FloatRepr} (st : store) : result DataFrame :=
  df ← pd_read_csv st;
  let missing := filter (λ c, c ∉ columns df) required_cols in
  if bool_decide (missing = []) then
    df ← assign_column "price" to_numeric df;
    df ← assign_column "rating" to_numeric df;
    df ← assign_column "inventory_count" inventory_cast df;
    df ← assign_column "product_id" astype_str df;
    df ← assign_column "product_name" astype_str df;
    df ← assign_column "product_description" astype_str df;
    df ← assign_column "type" astype_str df;
    Ok df
  else Raise (MissingColumns missing).

(** The temporary file is written in full and then moved over the target by
    [os.replace]; the target holds the old frame or the new one. *)
Definition _save_products_df (df : DataFrame) (st : store) : store := Some df.

(** ** Columns of a loaded frame

    The operations below run on a frame the loader has returned: its text
    columns hold [VStr] cells, [price] and [rating] hold numbers or NaN and
    [inventory_count] holds integers ([loaded], proved of every frame
    [_load_products_df] returns).  Where Python would refuse a [str]
    (comparison with a number, [float(...)], [int(...)]) the embedding
    treats the text as missing; no loaded frame reaches these cases. *)

(** The number in a cell; [None] for NaN. *)
Definition num (v : cell) : option Q :=
  match v with
  | VInt z => Some (inject_Z z)
  | VFloat q => Some q
  | _ => None
  end.

(** [float(v)] *)
Definition py_float (v : cell) : pyfloat :=
  match num v with
  | Some q => F q
  | None => FNaN
  end.

(** [int(v)] *)
Definition py_int (v : cell) : Z :=
  match v with
  | VInt z => z
  | VFloat q => Qtrunc q
  | _ => 0%Z
  end.

(** [col.str.upper()] and [col.str.lower()] on one cell: a cell that is not
    a [str] becomes NaN. *)
Definition series_str_upper (v : cell) : cell :=
  match v with
  | VStr s => VStr (PyStr.upper s)
  | _ => VNaN
  end.

Definition series_str_lower (v : cell) : cell :=
  match v with
  | VStr s => VStr (PyStr.lower s)
  | _ => VNaN
  end.

(** [col == s] on one cell *)
Definition series_eq (v : cell) (s : string) : bool :=
  match v with
  | VStr t => String.eqb t s
  | _ => false
  end.

(** [col >= x] and [col <= x] on one cell: false on NaN. *)
Definition series_ge (v : cell) (x : Q) : bool :=
  match num v with
  | Some q => Qle_bool x q
  | None => false
  end.

Definition series_le (v : cell) (x : Q) : bool :=
  match num v with
  | Some q => Qle_bool q x
  | None => false
  end.

(** [df[mask]] *)
Definition boolean_index (mask : row → bool) (df : DataFrame) : DataFrame :=
  {| columns := columns df; rows := List.filter mask (rows df) |}.

(** [if x is not None: df = df[mask]] *)
Definition narrow_if {A} (x : option A) (mask : A → row → bool) (df : DataFrame)
  : DataFrame :=
  match x with
  | Some a => boolean_index (mask a) df
  | None => df
  end.

(** The string that [if s:] lets through: one that is given and not empty. *)
Definition given (s : option string) : option string :=
  match s with
  | Some t => if PyStr.truthy t then Some t else None
  | None => None
  end.

(** [df.index[mask]]: the positions of the rows the mask selects. *)
Fixpoint index_where (mask : row → bool) (l : list row) : list nat :=
  match l with
  | [] => []
  | r :: l' => (if mask r then [0%nat] else []) ++ map S (index_where mask l')
  end.

(** [df.at[i, c]] and [df.at[i, c] = v] *)
Definition df_at (i : nat) (c : string) (df : DataFrame) : cell :=
  at_col c (default ∅ (rows df !! i)).

Definition df_set_at (i : nat) (c : string) (v : cell) (df : DataFrame) : DataFrame :=
  {| columns := columns df; rows := alter (insert c v) i (rows df) |}.

(** ** Regular expressions

    [Series.str.contains(pat)] takes [pat] as a regular expression
    ([regex=True] is the default).  The embedding covers the patterns built
    from ordinary characters and the dot; a pattern using any other special
    character of Python's [re] is reported as [OutsideModel]. *)

Inductive re_atom : Type :=
| AChar (c : ascii)
| AAny.

Definition re_special (c : ascii) : bool :=
  bool_decide (c ∈ list_ascii_of_string "\^$.|?*+()[]{}").

Fixpoint re_compile (pat : string) : option (list re_atom) :=
  match pat with
  | EmptyString => Some []
  | String c pat' =>
      p ← re_compile pat';
      if Ascii.eqb c "." then Some (AAny :: p)
      else if re_special c then None
      else Some (AChar c :: p)
  end.

Definition atom_matches (a : re_atom) (c : ascii) : bool :=
  match a with
  | AChar d => Ascii.eqb d c
  | AAny => negb (Ascii.eqb c "010")
  end.

(** [pat.match(s)]: the pattern matches at the start of [s]. *)
Fixpoint re_match (p : list re_atom) (s : string) : bool :=
  match p, s with
  | [], _ => true
  | _ :: _, EmptyString => false
  | a :: p', String c s' => atom_matches a c && re_match p' s'
  end.

(** [pat.search(s) is not None]: the pattern matches somewhere in [s]. *)
Fixpoint re_search (p : list re_atom) (s : string) : bool :=
  re_match p s ||
  match s with
  | EmptyString => false
  | String _ s' => re_search p s'
  end.

(** [col.str.contains(pat, na=False)] on one cell, [pat] compiled. *)
Definition series_str_contains (p : list re_atom) (v : cell) : bool :=
  match v with
  | VStr s => re_search p s
  | _ => false
  end.

(** ** Sorting and truncation *)

(** One sort key ascending, NaN last. *)
Definition key_le (a b : option Q) : bool :=
  match a, b with
  | Some x, Some y => Qle_bool x y
  | _, None => true
  | None, Some _ => false
  end.

(** One sort key descending, NaN last. *)
Definition key_ge (a b : option Q) : bool :=
  match a, b with
  | Some x, Some y => Qle_bool y x
  | _, None => true
  | None, Some _ => false
  end.

Definition key_eq (a b : option Q) : bool :=
  match a, b with
  | Some x, Some y => Qeq_bool x y
  | None, None => true
  | _, _ => false
  end.

(** The order of [by=["rating", "price"], ascending=[False, True]]. *)
Definition row_le (a b : row) : bool :=
  let ra := num (at_col "rating" a) in
  let rb := num (at_col "rating" b) in
  if key_eq ra rb
  then key_le (num (at_col "price" a)) (num (at_col "price" b))
  else key_ge ra rb.

Fixpoint insert_sorted (x : row) (l : list row) : list row :=
  match l with
  | [] => [x]
  | y :: l' => if row_le x y then x :: l else y :: insert_sorted x l'
  end.

(** [df.sort_values(by=["rating", "price"], ascending=[False, True])]: a
    stable sort, rows with equal keys keep their order. *)
Definition sort_values (df : DataFrame) : DataFrame :=
  {| columns := columns df; rows := foldr insert_sorted [] (rows df) |}.

(** [df.head(n)]: the first [n] rows, or all but the last [-n] rows when
    [n] is negative. *)
Definition head (n : Z) (df : DataFrame) : DataFrame :=
  {| columns := columns df;
     rows := if (0 <=? n)%Z then take (Z.to_nat n) (rows df)
             else take (length (rows df) - Z.to_nat (- n)) (rows df) |}.

(** ** The read operations *)

Inductive search_dict : Type :=
| SearchError (error : string)
| SearchOk (count : nat) (matches : list row).

Definition search_product_by_name_internal `{FloatRepr}
    (product_name : string) (st : store) : result search_dict :=
  df ← _load_products_df st;
  let q := PyStr.lower (PyStr.strip product_name) in
  if negb (PyStr.truthy q) then Ok (SearchError "Empty search query.")
  else
    match re_compile q with
    | None => Raise OutsideModel
    | Some p =>
        let mask r :=
          series_str_contains p (series_str_lower (at_col "product_name" r))
          || series_str_contains p (series_str_lower (at_col "product_description" r)) in
        let matches := boolean_index mask df in
        let results := rows matches in
        Ok (SearchOk (length results) results)
    end.

Inductive filter_dict : Type :=
| FilterOk (count : nat) (recommendations : list row).

Definition filter_products_internal `{FloatRepr}
    (product_type : option string) (min_rating min_price max_price : option Q)
    (top_n : Z) (st : store) : result filter_dict :=
  df ← _load_products_df st;
  let filtered := df in
  let filtered :=
    narrow_if (given product_type)
      (λ t r, series_eq (series_str_lower (at_col "type" r))
                        (PyStr.lower (PyStr.strip t))) filtered in
  let filtered :=
    narrow_if min_rating (λ x r, series_ge (at_col "rating" r) x) filtered in
  let filtered :=
    narrow_if min_price (λ x r, series_ge (at_col "price" r) x) filtered in
  let filtered :=
    narrow_if max_price (λ x r, series_le (at_col "price" r) x) filtered in
  match rows filtered with
  | [] => Ok (FilterOk 0 [])
  | _ :: _ =>
      let sorted_df := sort_values filtered in
      let recs := rows (head top_n sorted_df) in
      Ok (FilterOk (length recs) recs)
  end.

Record inventory_info : Type := {
  inv_product_id : cell;
  inv_product_name : cell;
  inv_price : pyfloat;
  inv_rating : pyfloat;
  inv_inventory_count : Z;
  inv_in_stock : bool
}.

Inductive inventory_dict : Type :=
| InventoryNotFound (product_id : string)
| InventoryOk (info : inventory_info).

(** The mask of both lookups:
    [df["product_id"].str.upper() == str(product_id).strip().upper()] *)
Definition id_mask (product_id : string) (r : row) : bool :=
  series_eq (series_str_upper (at_col "product_id" r))
            (PyStr.upper (PyStr.strip product_id)).

Definition check_inventory_internal `{FloatRepr}
    (product_id : string) (st : store) : result inventory_dict :=
  df ← _load_products_df st;
  let matches := boolean_index (id_mask product_id) df in
  match rows matches with
  | [] => Ok (InventoryNotFound product_id)
  | r :: _ =>
      Ok (InventoryOk
            {| inv_product_id := at_col "product_id" r;
               inv_product_name := at_col "product_name" r;
               inv_price := py_float (at_col "price" r);
               inv_rating := py_float (at_col "rating" r);
               inv_inventory_count := py_int (at_col "inventory_count" r);
               inv_in_stock := (0 <? py_int (at_col "inventory_count" r))%Z |})
  end.

(** ** Checkout *)

(** [round(x, 2)]: to the nearest multiple of 1/100, a tie to the even one. *)
Definition round_half_even (q : Q) : Z :=
  let n := Qnum q in
  let d := Zpos (Qden q) in
  let fl := (n / d)%Z in
  let r2 := (2 * (n mod d))%Z in
  if (r2 <? d)%Z then fl
  else if (d <? r2)%Z then (fl + 1)%Z
  else if Z.even fl then fl else (fl + 1)%Z.

Definition py_round2 (x : pyfloat) : pyfloat :=
  match x with
  | FNaN => FNaN
  | F q => F (round_half_even (q * 100) # 100)
  end.

(** [x * n] for a float and an int *)
Definition float_mul_int (x : pyfloat) (n : Z) : pyfloat :=
  match x with
  | FNaN => FNaN
  | F q => F (q * inject_Z n)
  end.

Definition hex_digit (n : N) : ascii :=
  if (n <? 10)%N then ascii_of_N (48 + n) else ascii_of_N (87 + n).

(** [bytes.hex()] of one byte and of a byte string *)
Definition hex_byte (b : N) : string :=
  String (hex_digit (b / 16 mod 16)) (String (hex_digit (b mod 16)) EmptyString).

Definition bytes_hex (bs : list N) : string :=
  foldr (λ b s, hex_byte b +:+ s) EmptyString bs.

Record order : Type := {
  order_id : string;
  order_product_id : cell;
  order_product_name : cell;
  qty : Z;
  unit_price : pyfloat;
  total_price : pyfloat
}.

Inductive checkout_dict : Type :=
| InvalidQuantity (message : string)
| NotFound (product_id : string)
| InsufficientInventory (available : Z)
| CheckoutOk (o : order).

(** [urandom] is the byte string [os.urandom(4)] returns in this call.  The
    second component is the file after the call. *)
Definition checkout_internal `{FloatRepr}
    (product_id : string) (quantity : Z) (urandom : list N) (st : store)
  : result checkout_dict * store :=
  if (quantity <=? 0)%Z
  then (Ok (InvalidQuantity "Quantity must be >= 1"), st)
  else
    match _load_products_df st with
    | Raise e => (Raise e, st)
    | Ok df =>
        let idx := index_where (id_mask product_id) (rows df) in
        match idx with
        | [] => (Ok (NotFound product_id), st)
        | i :: _ =>
            let available := py_int (df_at i "inventory_count" df) in
            if (available <? quantity)%Z
            then (Ok (InsufficientInventory available), st)
            else
              let df := df_set_at i "inventory_count" (VInt (available - quantity)) df in
              let st := _save_products_df df st in
              let o :=
                {| order_id := "ORD-" +:+ bytes_hex urandom;
                   order_product_id := df_at i "product_id" df;
                   order_product_name := df_at i "product_name" df;
                   qty := quantity;
                   unit_price := py_float (df_at i "price" df);
                   total_price :=
                     py_round2 (float_mul_int (py_float (df_at i "price" df)) quantity) |} in
              (Ok (CheckoutOk o), st)
        end
    end.

(** ** Properties of frames, rows and results *)

(** Column [c] of row [r] holds a cell that the conversion [f] accepts and
    leaves as it is. *)
Definition settled (c : string) (f : cell → result cell) (r : row) : Prop :=
  ∃ v, r !! c = Some v ∧ f v = Ok v.

(** A row as the loader leaves it: numbers or NaN in [price] and [rating],
    an integer in [inventory_count], text in the other four columns. *)
Definition loaded_row `{FloatRepr} (r : row) : Prop :=
  settled "price" to_numeric r ∧
  settled "rating" to_numeric r ∧
  settled "inventory_count" inventory_cast r ∧
  settled "product_id" astype_str r ∧
  settled "product_name" astype_str r ∧
  settled "product_description" astype_str r ∧
  settled "type" astype_str r.

Definition loaded `{FloatRepr} (df : DataFrame) : Prop :=
  (∀ c, c ∈ required_cols → c ∈ columns df) ∧ Forall loaded_row (rows df).

(** What the loader makes of one row of the file when nothing raises. *)
Definition load_row `{FloatRepr} (r : row) : result row :=
  p ← to_numeric (at_col "price" r);
  g ← to_numeric (at_col "rating" r);
  n ← inventory_cast (at_col "inventory_count" r);
  i ← astype_str (at_col "product_id" r);
  m ← astype_str (at_col "product_name" r);
  d ← astype_str (at_col "product_description" r);
  t ← astype_str (at_col "type" r);
  Ok (<["type" := t]> (<["product_description" := d]> (<["product_name" := m]> (
      <["product_id" := i]> (<["inventory_count" := n]> (<["rating" := g]> (
      <["price" := p]> r))))))).

(** The three numeric conversions of the loader, on one raw row. *)
Definition coercion_fails (r : row) : Prop :=
  (∃ e, to_numeric (at_col "price" r) = Raise e) ∨
  (∃ e, to_numeric (at_col "rating" r) = Raise e) ∨
  (∃ e, inventory_cast (at_col "inventory_count" r) = Raise e).

(** Equality of two strings up to the case of their letters. *)
Definition eq_ignore_case (a b : string) : Prop := PyStr.lower a = PyStr.lower b.

(** The requested id, trimmed, equals the id of the row up to case. *)
Definition id_matches (product_id : string) (r : row) : Prop :=
  ∃ s, at_col "product_id" r = VStr s ∧ eq_ignore_case s (PyStr.strip product_id).

(** The lookup resolves [product_id] to the row [r] at position [i]: the
    first row of the frame whose id matches. *)
Definition resolves (product_id : string) (df : DataFrame) (i : nat) (r : row) : Prop :=
  rows df !! i = Some r ∧ id_matches product_id r ∧
  ∀ j r', (j < i)%nat → rows df !! j = Some r' → ¬ id_matches product_id r'.

Definition inventory_count (r : row) : Z := py_int (at_col "inventory_count" r).
Definition price (r : row) : pyfloat := py_float (at_col "price" r).
Definition rating (r : row) : pyfloat := py_float (at_col "rating" r).

(** The frame [df] after [quantity] units of the row at position [i] have
    been taken out of stock. *)
Definition sold (i : nat) (quantity : Z) (df : DataFrame) : DataFrame :=
  df_set_at i "inventory_count"
    (VInt (py_int (df_at i "inventory_count" df) - quantity)) df.

(** [a] may stand before [b] in a list sorted by price ascending; a missing
    price stands last. *)
Definition price_ascending (a b : row) : Prop :=
  match price a, price b with
  | F x, F y => (x <= y)%Q
  | _, FNaN => True
  | FNaN, F _ => False
  end.

(** [a] may stand before [b] in a list sorted by rating descending, ties
    broken by price ascending; a missing rating stands last. *)
Definition ranks_before (a b : row) : Prop :=
  match rating a, rating b with
  | F x, F y => (y < x)%Q ∨ (x == y ∧ price_ascending a b)
  | F _, FNaN => True
  | FNaN, F _ => False
  | FNaN, FNaN => price_ascending a b
  end.

(** The predicates of the filter operation, each on one row. *)
Definition type_is (t : string) (r : row) : Prop :=
  ∃ s, at_col "type" r = VStr s ∧ eq_ignore_case s (PyStr.strip t).
Definition rating_at_least (x : Q) (r : row) : Prop :=
  ∃ q, rating r = F q ∧ (x <= q)%Q.
Definition price_at_least (x : Q) (r : row) : Prop :=
  ∃ q, price r = F q ∧ (x <= q)%Q.
Definition price_at_most (x : Q) (r : row) : Prop :=
  ∃ q, price r = F q ∧ (q <= x)%Q.

(** The predicates the filter applies for the given parameters: the type
    when it is given and not empty, each bound when it is given. *)
Definition passes (product_type : option string)
    (min_rating min_price max_price : option Q) (r : row) : Prop :=
  (∀ t, product_type = Some t → t ≠ "" → type_is t r) ∧
  (∀ x, min_rating = Some x → rating_at_least x r) ∧
  (∀ x, min_price = Some x → price_at_least x r) ∧
  (∀ x, max_price = Some x → price_at_most x r).

(** The rows of [df] that the filter keeps for the given parameters. *)
Definition narrowed (product_type : option string)
    (min_rating min_price max_price : option Q) (df : DataFrame) : DataFrame :=
  narrow_if max_price (λ x r, series_le (at_col "price" r) x) (
  narrow_if min_price (λ x r, series_ge (at_col "price" r) x) (
  narrow_if min_rating (λ x r, series_ge (at_col "rating" r) x) (
  narrow_if (given product_type)
    (λ t r, series_eq (series_str_lower (at_col "type" r))
                      (PyStr.lower (PyStr.strip t))) df))).

(** A pattern without special characters: it stands for itself. *)
Definition plain (q : string) : bool :=
  PyStr.all_chars (λ c, negb (re_special c)) q.

(** The pattern that matches the string [q] and nothing else. *)
Definition literal (q : string) : list re_atom := AChar <$> list_ascii_of_string q.

(** The name or the description of the row contains [q], up to case. *)
Definition mentions (q : string) (r : row) : Prop :=
  (∃ s, at_col "product_name" r = VStr s ∧ PyStr.substring_of q (PyStr.lower s)) ∨
  (∃ s, at_col "product_description" r = VStr s ∧ PyStr.substring_of q (PyStr.lower s)).

(** A checkout that did not go through: an error result or an exception. *)
Definition checkout_failed (res : result checkout_dict) : Prop :=
  match res with
  | Ok (CheckoutOk _) => False
  | _ => True
  end.

(** ** Example data *)

Fixpoint fraction_digits (fuel : nat) (r d : Z) : string :=
  match fuel with
  | O => EmptyString
  | S fuel' =>
      if (r =? 0)%Z then EmptyString
      else String (ascii_of_N (48 + Z.to_N (10 * r / d)))
                  (fraction_digits fuel' ((10 * r) mod d)%Z d)
  end.

(** Positional decimal notation, which is what Python prints for the short
    decimals of a price list. *)
Global Instance positional_repr : FloatRepr := λ q,
  let a := Z.abs (Qnum q) in
  let d := Zpos (Qden q) in
  (if (Qnum q <? 0)%Z then "-" else "") +:+ pretty (a / d)%Z +:+ "." +:+
  (if (a mod d =? 0)%Z then "0" else fraction_digits 17 (a mod d)%Z d).

Definition product (id name description type : string) (price rating : Q)
    (inventory : Z) : row :=
  <["product_id" := VStr id]> (
  <["product_name" := VStr name]> (
  <["product_description" := VStr description]> (
  <["type" := VStr type]> (
  <["price" := VFloat price]> (
  <["rating" := VFloat rating]> (
  <["inventory_count" := VInt inventory]> ∅)))))).

Definition frame (rs : list row) : DataFrame :=
  {| columns := required_cols; rows := rs |}.

Definition catalog (rs : list row) : store := Some (frame rs).

Definition laptop : row :=
  product "P1" "Laptop" "Fast and light" "Electronics" 100 4.5 10.
Definition kettle : row :=
  product "P2" "Kettle" "Boils water" "Kitchen" 25 4.5 3.
Definition returned_mug : row :=
  product "P3" "Mug" "Holds tea" "Kitchen" 5 (-1) (-5).

Definition shop : store := catalog [laptop; kettle; returned_mug].

Definition voucher : row :=
  product "P4" "Voucher" "Store credit" "Service" (-10) 3 1.

Definition ledger : store := catalog [laptop; returned_mug; voucher].

(** A file as a spreadsheet exports it: a numeric id, no name, an integer
    price, a fractional stock and a column of its own. *)
Definition exported_row : row :=
  <["supplier" := VStr "ACME"]> (
  <["product_id" := VInt 7]> (
  <["product_name" := VNaN]> (
  <["product_description" := VStr "Cast iron pan"]> (
  <["type" := VStr "Kitchen"]> (
  <["price" := VInt 40]> (
  <["rating" := VFloat 4.8]> (
  <["inventory_count" := VFloat 3.7]> ∅))))))).

Definition exported : DataFrame :=
  {| columns := required_cols ++ ["supplier"]; rows := [exported_row] |}.

Definition imported_row : row :=
  <["supplier" := VStr "ACME"]> (
  <["product_id" := VStr "7"]> (
  <["product_name" := VStr "nan"]> (
  <["product_description" := VStr "Cast iron pan"]> (
  <["type" := VStr "Kitchen"]> (
  <["price" := VInt 40]> (
  <["rating" := VFloat 4.8]> (
  <["inventory_count" := VInt 3]> ∅))))))).

Definition imported : DataFrame :=
  {| columns := required_cols ++ ["supplier"]; rows := [imported_row] |}.

(** A file without the [rating] and [type] columns. *)
Definition short_file : DataFrame :=
  {| columns := ["product_id"; "product_name"; "product_description";
                 "price"; "inventory_count"];
     rows := [delete "rating" (delete "type" laptop)] |}.

(** A file whose second row has a word where the price should be. *)
Definition priceless_file : DataFrame :=
  frame [laptop; <["price" := VStr "ask"]> kettle].

(** ** Further properties of frames *)

(** Two rows that agree in every column but [inventory_count]. *)
Definition same_but_stock (r r' : row) : Prop :=
  ∀ c, c ≠ "inventory_count" → r' !! c = r !! c.

(** Two results of the search, or of the filter, that differ at most in the
    stock of the records they list. *)
Definition search_same_but_stock (a b : result search_dict) : Prop :=
  match a, b with
  | Ok (SearchOk c ms), Ok (SearchOk c' ms') => c = c' ∧ Forall2 same_but_stock ms ms'
  | Ok (SearchError e), Ok (SearchError e') => e = e'
  | Raise e, Raise e' => e = e'
  | _, _ => False
  end.

Definition filter_same_but_stock (a b : result filter_dict) : Prop :=
  match a, b with
  | Ok (FilterOk c rs), Ok (FilterOk c' rs') => c = c' ∧ Forall2 same_but_stock rs rs'
  | Raise e, Raise e' => e = e'
  | _, _ => False
  end.

(** The units in stock, over all records. *)
Definition total_stock (df : DataFrame) : Z :=
  foldr (λ r n, (inventory_count r + n)%Z) 0%Z (rows df).

(** A byte string as [os.urandom] returns it. *)
Definition is_bytes (bs : list N) : Prop := Forall (λ b, (b < 256)%N) bs.

Definition is_hex_digit (c : ascii) : bool :=
  let n := N_of_ascii c in
  ((48 <=? n)%N && (n <=? 57)%N) || ((97 <=? n)%N && (n <=? 102)%N).

(** ** Text for the agent

    The tools hand the agent a text made from the result dict.  [str(x)] of
    a float is [float_repr]; [format(x, ".2f")] rounds the exact value to two
    decimals, a tie to the even neighbour, and keeps the sign of [x]
    (negative zero is outside the model). *)

Definition newline : string := String "010" EmptyString.

(** [str(v)] *)
Definition py_str `{FloatRepr} (v : cell) : string :=
  match v with
  | VStr s => s
  | VInt z => pretty z
  | VFloat q => float_repr q
  | VNaN => "nan"
  end.

Definition float_str `{FloatRepr} (x : pyfloat) : string :=
  match x with
  | F q => float_repr q
  | FNaN => "nan"
  end.

Definition two_digits (n : Z) : string :=
  String (ascii_of_N (48 + Z.to_N (n / 10)))
    (String (ascii_of_N (48 + Z.to_N (n mod 10))) EmptyString).

(** [f"{x:.2f}"] *)
Definition format_2f (x : pyfloat) : string :=
  match x with
  | FNaN => "nan"
  | F q =>
      let n := Z.abs (round_half_even (q * 100)) in
      (if (Qnum q <? 0)%Z then "-" else "") +:+ pretty (n / 100)%Z +:+ "." +:+
      two_digits (n mod 100)
  end.

(** [", ".join(lines)] with the separator [sep] *)
Fixpoint join (sep : string) (lines : list string) : string :=
  match lines with
  | [] => EmptyString
  | [l] => l
  | l :: ls => l +:+ sep +:+ join sep ls
  end.

Definition _format_product_row `{FloatRepr} (r : row) : string :=
  py_str (at_col "product_id" r) +:+ " — " +:+ py_str (at_col "product_name" r) +:+
  " ($" +:+ format_2f (py_float (at_col "price" r)) +:+
  ", rating " +:+ py_str (at_col "rating" r) +:+
  ", type " +:+ py_str (at_col "type" r) +:+ ")".

Definition _dict_to_text_search `{FloatRepr} (result : search_dict) : string :=
  match result with
  | SearchError error => "Error: " +:+ error +:+ ". " +:+ ""
  | SearchOk count matches =>
      if (count =? 0)%nat then "No products found."
      else
        join newline
          (("Products found (" +:+ pretty count +:+ "):")
           :: map (λ r, "• " +:+ _format_product_row r) matches)
  end.

Definition _dict_to_text_filter `{FloatRepr} (result : filter_dict) : string :=
  match result with
  | FilterOk count recommendations =>
      if (count =? 0)%nat then "No products match the given filters."
      else
        join newline
          (("Top " +:+ pretty count +:+ " recommendation(s):")
           :: map (λ r, "• " +:+ _format_product_row r +:+ " — inventory: " +:+
                        match r !! "inventory_count" with
                        | Some v => py_str v
                        | None => "N/A"
                        end) recommendations)
  end.

Definition _dict_to_text_inventory `{FloatRepr} (result : inventory_dict) : string :=
  match result with
  | InventoryNotFound product_id => "Product " +:+ product_id +:+ " not found."
  | InventoryOk info =>
      py_str (inv_product_name info) +:+ " — " +:+
      (if inv_in_stock info then "in stock" else "out of stock") +:+ " " +:+
      "(" +:+ pretty (inv_inventory_count info) +:+ " units). Price: $" +:+
      format_2f (inv_price info) +:+ ", Rating: " +:+ float_str (inv_rating info) +:+ "."
  end.

Definition _dict_to_text_checkout `{FloatRepr} (result : checkout_dict) : string :=
  match result with
  | InsufficientInventory available =>
      "Checkout failed: only " +:+ pretty available +:+ " units available."
  | NotFound product_id =>
      "Checkout failed: product " +:+ product_id +:+ " not found."
  | InvalidQuantity _ => "Checkout failed: " +:+ "invalid_quantity"
  | CheckoutOk o =>
      "✅ Checkout successful: " +:+ pretty (qty o) +:+ " × " +:+
      py_str (order_product_name o) +:+ " (Order ID: " +:+ order_id o +:+ "). " +:+
      "Total: $" +:+ format_2f (total_price o)
  end.

(** What the tools need from where they run: the path of the catalog file
    and [str(exc)] of an exception. *)
Class Runtime := {
  PRODUCTS_CSV : string;
  exception_text : exn → string
}.

(** The [try] of the four tools: no database, any other exception, or the
    text of the result. *)
Definition tool_reply `{Runtime} {A} (on_exception : string) (to_text : A → string)
    (r : result A) : result string :=
  match r with
  | Ok d => Ok (to_text d)
  | Raise FileNotFoundError =>
      Ok ("Product database not found at " +:+ PRODUCTS_CSV +:+ ".")
  | Raise OutsideModel => Raise OutsideModel
  | Raise e => Ok (on_exception +:+ exception_text e)
  end.

Definition search_product_by_name `{FloatRepr} `{Runtime}
    (product_name : string) (st : store) : result string :=
  tool_reply "Error searching product: " _dict_to_text_search
    (search_product_by_name_internal product_name st).

Definition filter_products `{FloatRepr} `{Runtime}
    (product_type : option string) (min_rating min_price max_price : option Q)
    (top_n : Z) (st : store) : result string :=
  tool_reply "Error filtering products: " _dict_to_text_filter
    (filter_products_internal product_type min_rating min_price max_price top_n st).

Definition check_inventory `{FloatRepr} `{Runtime}
    (product_id : string) (st : store) : result string :=
  tool_reply "Error checking inventory: " _dict_to_text_inventory
    (check_inventory_internal product_id st).

Definition checkout_product `{FloatRepr} `{Runtime}
    (product_id : string) (quantity : Z) (urandom : list N) (st : store)
  : result string * store :=
  let (r, st') := checkout_internal product_id quantity urandom st in
  (tool_reply "Error during checkout: " _dict_to_text_checkout r, st').

(** A place to run the examples. *)
Global Instance example_runtime : Runtime := {|
  PRODUCTS_CSV := "tools/data/product.csv";
  exception_text := λ e,
    match e with
    | MissingColumns missing => "Missing required columns in CSV: " +:+ join ", " missing
    | _ => "could not convert"
    end
|}.

(** ** The answer of the agent and the memory of the chat page

    [answer] of [sales_agent_new.py] reads the events that the agent graph
    streams; each event maps the nodes that ran to their payloads, and a
    payload is given here by its list of messages (empty when it has none).
    The page of [streamlit_app_sales.py] keeps the last exchanges as its
    memory. *)

Inductive message : Type :=
| HumanMessage (content : string)
| AIMessage (content : string) (tool_calls : list string)
| ToolMessage (content : string).

(** [json.dumps(json.loads(s), indent=2)], or [None] when [s] is no JSON. *)
Class Json := json_reformat : string → option string.

(** What a tool message adds to [parts]. *)
Definition tool_part `{Json} (content : string) : string :=
  match json_reformat content with
  | Some text => "[Tool response] " +:+ text
  | None => content
  end.

(** The body of the inner loop of [answer] on one payload; the state is
    [parts] and [final]. *)
Definition answer_payload `{Json} (state : list string * string)
    (msgs : list message) : list string * string :=
  match last msgs with
  | None => state
  | Some m =>
      let '(parts, final) := state in
      let '(parts, final) :=
        match m with
        | AIMessage content [] =>
            ((parts ++ [content])%list,
             PyStr.strip (join "" (parts ++ [content])%list))
        | _ => (parts, final)
        end in
      match m with
      | ToolMessage content => ((parts ++ [tool_part content])%list, final)
      | _ => (parts, final)
      end
  end.

Definition answer `{Json} (events : list (list (list message))) : string :=
  (foldl answer_payload ([], "") (concat events)).2.

(** The reply that closes a turn, when the payload ends with one: an AI
    message without tool calls. *)
Definition final_reply (msgs : list message) : option string :=
  match last msgs with
  | Some (AIMessage content []) => Some content
  | _ => None
  end.

(** The texts that the payloads add to [parts], in order. *)
Definition parts_of `{Json} (payloads : list (list message)) : list string :=
  payloads ≫= λ msgs,
    match last msgs with
    | Some (AIMessage content []) => [content]
    | Some (ToolMessage content) => [tool_part content]
    | _ => []
    end.

(** [l[-n:]] for a positive [n] *)
Definition last_n {A} (n : nat) (l : list A) : list A := drop (length l - n) l.

(** One exchange as the page writes it into its memory. *)
Definition exchange (user_input response : string) : string :=
  "User: " +:+ user_input +:+ newline +:+ "Agent: " +:+ response.

(** The memory after an answered turn.  The agent module has an [answer]
    and no [chat], so the page takes the branch that calls [answer]; a turn
    is the user's input with the response.  A turn whose backend call
    raises leaves the memory as it is. *)
Definition remember (memory : list string) (turn : string * string) : list string :=
  last_n 5 (memory ++ [exchange turn.1 turn.2])%list.

(** The prompt the page sends when it falls back on [answer]. *)
Definition prompt (memory : list string) (user_input : string) : string :=
  "Previous conversation: " +:+ join newline memory +:+ newline +:+
  "latest query: " +:+ user_input.

(** No tool reply of this repository is JSON; an instance for the examples. *)
Global Instance no_json : Json := λ _, None.

(** * Proofs *)

(** ** Strings *)

Lemma lower_upper_char c : PyStr.lower_char (PyStr.upper_char c) = PyStr.lower_char c.
Proof. destruct c as [[] [] [] [] [] [] [] []]; reflexivity. Qed.

Lemma upper_lower_char c : PyStr.upper_char (PyStr.lower_char c) = PyStr.upper_char c.
Proof. destruct c as [[] [] [] [] [] [] [] []]; reflexivity. Qed.

Lemma lower_upper s : PyStr.lower (PyStr.upper s) = PyStr.lower s.
Proof.
  unfold PyStr.lower, PyStr.upper in *.
  induction s as [|c s IH]; cbn [PyStr.map_chars]; [done|].
  by rewrite lower_upper_char, IH.
Qed.

Lemma upper_lower s : PyStr.upper (PyStr.lower s) = PyStr.upper s.
Proof.
  unfold PyStr.lower, PyStr.upper in *.
  induction s as [|c s IH]; cbn [PyStr.map_chars]; [done|].
  by rewrite upper_lower_char, IH.
Qed.

(** Comparing the upper-cased strings, as the lookups do, and comparing the
    lower-cased ones, as the filter does, is the same comparison. *)
Lemma upper_eq_iff a b : PyStr.upper a = PyStr.upper b ↔ eq_ignore_case a b.
Proof.
  unfold eq_ignore_case. split; intros E.
  - by rewrite <- (lower_upper a), E, lower_upper.
  - by rewrite <- (upper_lower a), E, upper_lower.
Qed.

Lemma lower_empty s : PyStr.lower s = "" ↔ s = "".
Proof. destruct s; simpl; split; intros; done. Qed.

Lemma lstrip_empty s : PyStr.lstrip s = "" ↔ PyStr.all_chars PyStr.is_space s = true.
Proof.
  induction s as [|c s IH]; simpl; [done|].
  destruct (PyStr.is_space c); simpl; [exact IH|done].
Qed.

Lemma rstrip_empty s : PyStr.rstrip s = "" ↔ PyStr.all_chars PyStr.is_space s = true.
Proof.
  induction s as [|c s IH]; simpl; [done|].
  destruct (PyStr.rstrip s) eqn:E.
  - destruct (PyStr.is_space c); simpl; [|done].
    split; intros _; [by apply IH | done].
  - split; [done|]. intros [_ H]%andb_prop. by apply IH in H.
Qed.

Lemma lstrip_all_space s :
  PyStr.all_chars PyStr.is_space (PyStr.lstrip s) = true →
  PyStr.all_chars PyStr.is_space s = true.
Proof.
  induction s as [|c s IH]; simpl; [done|].
  destruct (PyStr.is_space c) eqn:E; simpl; [exact IH|].
  by rewrite E.
Qed.

(** A string strips to nothing exactly when it is empty or all whitespace. *)
Lemma strip_empty s : PyStr.strip s = "" ↔ PyStr.all_chars PyStr.is_space s = true.
Proof.
  unfold PyStr.strip. rewrite rstrip_empty. split.
  - apply lstrip_all_space.
  - intros H. apply lstrip_empty in H. by rewrite H.
Qed.

Lemma truthy_false s : PyStr.truthy s = false ↔ s = "".
Proof. by destruct s. Qed.

(** ** The result monad *)

Lemma bind_Ok {A B} (m : result A) (k : A → result B) b :
  m ≫= k = Ok b → ∃ a, m = Ok a ∧ k a = Ok b.
Proof. destruct m as [a|e]; simpl; [eauto | done]. Qed.

Lemma bind_Ok_l {A B} (a : A) (k : A → result B) : Ok a ≫= k = k a.
Proof. reflexivity. Qed.

Lemma traverse_Ok {A B} (f : A → result B) l l' :
  traverse f l = Ok l' → Forall2 (λ a b, f a = Ok b) l l'.
Proof.
  revert l'. induction l as [|a l IH]; simpl; intros l' E.
  - injection E as <-. constructor.
  - apply bind_Ok in E as (b & Eb & E).
    apply bind_Ok in E as (bs & Ebs & E).
    injection E as <-. constructor; auto.
Qed.

Lemma traverse_settled {A} (f : A → result A) l :
  Forall (λ a, f a = Ok a) l → traverse f l = Ok l.
Proof.
  induction 1 as [|a l Ea _ IH]; simpl; [done|].
  by rewrite Ea; simpl; rewrite IH.
Qed.

Lemma traverse_Raise {A B} (f : A → result B) l a e :
  a ∈ l → f a = Raise e → ∃ e', traverse f l = Raise e'.
Proof.
  intros Hin Ea. induction Hin as [a l|a b l _ IH]; simpl.
  - rewrite Ea. simpl. eauto.
  - destruct (f b); simpl; [|eauto].
    destruct (IH Ea) as [e' ->]. simpl. eauto.
Qed.

(** ** Column assignment *)

Lemma at_col_insert c v (r : row) : at_col c (<[c := v]> r) = v.
Proof. unfold at_col. by rewrite lookup_insert_eq. Qed.

Lemma at_col_insert_ne c c' v (r : row) :
  c ≠ c' → at_col c' (<[c := v]> r) = at_col c' r.
Proof. intros Hne. unfold at_col. by rewrite lookup_insert_ne. Qed.

Lemma settled_at_col c f r : settled c f r → f (at_col c r) = Ok (at_col c r).
Proof. intros (v & E & Hv). unfold at_col. by rewrite E. Qed.

Lemma settled_insert c f v (r : row) : f v = Ok v → settled c f (<[c := v]> r).
Proof. intros Hv. exists v. by rewrite lookup_insert_eq. Qed.

Lemma settled_insert_ne c c' f v (r : row) :
  c' ≠ c → settled c f r → settled c f (<[c' := v]> r).
Proof. intros Hne (w & E & Hw). exists w. by rewrite lookup_insert_ne. Qed.

Lemma settled_insert_id c f (r : row) :
  settled c f r → <[c := at_col c r]> r = r.
Proof. intros (v & E & _). unfold at_col. rewrite E. by apply insert_id. Qed.

Lemma assign_column_Ok c f df df' :
  assign_column c f df = Ok df' →
  columns df' = columns df ∧
  Forall2 (λ r r', ∃ v, f (at_col c r) = Ok v ∧ r' = <[c := v]> r) (rows df) (rows df').
Proof.
  unfold assign_column. intros E.
  apply bind_Ok in E as (rs & Ers & E). injection E as <-. simpl.
  split; [done|].
  apply traverse_Ok in Ers.
  eapply Forall2_impl; [exact Ers|]. simpl.
  intros r r' (v & Ev & E)%bind_Ok. injection E as <-. eauto.
Qed.

Lemma assign_column_settled c f df :
  Forall (settled c f) (rows df) → assign_column c f df = Ok df.
Proof.
  intros Hs. unfold assign_column.
  rewrite traverse_settled; [by destruct df|].
  eapply Forall_impl; [exact Hs|]. simpl.
  intros r Hr. rewrite (settled_at_col _ _ _ Hr). simpl.
  by rewrite (settled_insert_id _ _ _ Hr).
Qed.

Lemma assign_column_Raise c f df r e :
  r ∈ rows df → f (at_col c r) = Raise e → ∃ e', assign_column c f df = Raise e'.
Proof.
  intros Hin Hf. unfold assign_column.
  destruct (traverse_Raise (λ r, v ← f (at_col c r); Ok (<[c := v]> r))
              (rows df) r e Hin) as [e' ->]; [by rewrite Hf|].
  simpl. eauto.
Qed.

(** ** The conversions of the loader settle after one application *)

Lemma to_numeric_settles v w : to_numeric v = Ok w → to_numeric w = Ok w.
Proof. destruct v; intros E; by simplify_eq/=. Qed.

Lemma inventory_cast_settles v w : inventory_cast v = Ok w → inventory_cast w = Ok w.
Proof. destruct v; cbv; intros E; by simplify_eq. Qed.

Lemma astype_str_settles `{FloatRepr} v w : astype_str v = Ok w → astype_str w = Ok w.
Proof. destruct v; intros E; by simplify_eq/=. Qed.

Lemma astype_str_total `{FloatRepr} v : ∃ s, astype_str v = Ok (VStr s).
Proof. destruct v; simpl; eauto. Qed.

Lemma settled_to_numeric c r :
  settled c to_numeric r → ∀ s, at_col c r ≠ VStr s.
Proof.
  intros Hs s E. apply settled_at_col in Hs. rewrite E in Hs. done.
Qed.

Lemma settled_inventory_cast c r :
  settled c inventory_cast r → ∃ z, at_col c r = VInt z.
Proof.
  intros Hs. apply settled_at_col in Hs.
  destruct (at_col c r); try done. eauto.
Qed.

Lemma settled_astype_str `{FloatRepr} c r :
  settled c astype_str r → ∃ s, at_col c r = VStr s.
Proof.
  intros Hs. apply settled_at_col in Hs.
  destruct (astype_str_total (at_col c r)) as [s Es].
  rewrite Es in Hs. injection Hs as <-. eauto.
Qed.

(** ** The loader *)

Lemma Forall2_compose {A B C} (R : A → B → Prop) (S : B → C → Prop) l1 l2 l3 :
  Forall2 R l1 l2 → Forall2 S l2 l3 →
  Forall2 (λ a c, ∃ b, R a b ∧ S b c) l1 l3.
Proof.
  intros H. revert l3. induction H as [|a b l1 l2 Hab _ IH]; intros l3 H3.
  - inversion H3. constructor.
  - inversion H3 as [|? c ? l3' Hbc H3']; subst. constructor; eauto.
Qed.

Ltac column_neq := let E := fresh in intros E; discriminate E.

(** A successful load has read a file that has the seven columns and has
    converted it row by row. *)
Lemma load_Ok `{FloatRepr} st df :
  _load_products_df st = Ok df →
  ∃ raw, st = Some raw ∧
    (∀ c, c ∈ required_cols → c ∈ columns raw) ∧
    columns df = columns raw ∧
    Forall2 (λ r r', load_row r = Ok r') (rows raw) (rows df).
Proof.
  unfold _load_products_df. intros E.
  apply bind_Ok in E as (raw & Eraw & E).
  destruct st as [raw'|]; simpl in Eraw; [|done]. injection Eraw as ->.
  exists raw. split; [done|].
  case_bool_decide as Hmiss; [|done].
  apply bind_Ok in E as (d1 & E1 & E). apply assign_column_Ok in E1 as [C1 F1].
  apply bind_Ok in E as (d2 & E2 & E). apply assign_column_Ok in E2 as [C2 F2].
  apply bind_Ok in E as (d3 & E3 & E). apply assign_column_Ok in E3 as [C3 F3].
  apply bind_Ok in E as (d4 & E4 & E). apply assign_column_Ok in E4 as [C4 F4].
  apply bind_Ok in E as (d5 & E5 & E). apply assign_column_Ok in E5 as [C5 F5].
  apply bind_Ok in E as (d6 & E6 & E). apply assign_column_Ok in E6 as [C6 F6].
  apply bind_Ok in E as (d7 & E7 & E). apply assign_column_Ok in E7 as [C7 F7].
  injection E as <-.
  split; [|split; [congruence|]].
  - intros c Hc. destruct (decide (c ∈ columns raw)) as [|Hn]; [done|].
    assert (c ∈ filter (λ c, c ∉ columns raw) required_cols) as Hin
      by (apply list_elem_of_filter; done).
    rewrite Hmiss in Hin. by apply not_elem_of_nil in Hin.
  - pose proof (Forall2_compose _ _ _ _ _ F1
        (Forall2_compose _ _ _ _ _ F2
        (Forall2_compose _ _ _ _ _ F3
        (Forall2_compose _ _ _ _ _ F4
        (Forall2_compose _ _ _ _ _ F5
        (Forall2_compose _ _ _ _ _ F6 F7)))))) as F.
    eapply Forall2_impl; [exact F|]. simpl.
    intros r r' (r1 & (v1 & E1 & ->) & r2 & (v2 & E2 & ->) & r3 & (v3 & E3 & ->) &
                 r4 & (v4 & E4 & ->) & r5 & (v5 & E5 & ->) & r6 & (v6 & E6 & ->) &
                 v7 & E7 & ->).
    repeat rewrite at_col_insert_ne in E2 by column_neq.
    repeat rewrite at_col_insert_ne in E3 by column_neq.
    repeat rewrite at_col_insert_ne in E4 by column_neq.
    repeat rewrite at_col_insert_ne in E5 by column_neq.
    repeat rewrite at_col_insert_ne in E6 by column_neq.
    repeat rewrite at_col_insert_ne in E7 by column_neq.
    unfold load_row.
    by rewrite E1, bind_Ok_l, E2, bind_Ok_l, E3, bind_Ok_l, E4, bind_Ok_l,
      E5, bind_Ok_l, E6, bind_Ok_l, E7, bind_Ok_l.
Qed.

Lemma load_row_Ok `{FloatRepr} r r' :
  load_row r = Ok r' → loaded_row r' ∧ ¬ coercion_fails r.
Proof.
  unfold load_row. intros E.
  apply bind_Ok in E as (p & Ep & E). apply bind_Ok in E as (g & Eg & E).
  apply bind_Ok in E as (n & En & E). apply bind_Ok in E as (i & Ei & E).
  apply bind_Ok in E as (m & Em & E). apply bind_Ok in E as (d & Ed & E).
  apply bind_Ok in E as (t & Et & E). injection E as <-.
  split.
  - apply to_numeric_settles in Ep, Eg. apply inventory_cast_settles in En.
    apply astype_str_settles in Ei, Em, Ed, Et.
    repeat split;
      repeat (first [ by apply settled_insert
                    | apply settled_insert_ne; [column_neq|] ]).
  - intros [[e Ee]|[[e Ee]|[e Ee]]]; congruence.
Qed.

Lemma load_row_settled `{FloatRepr} r : loaded_row r → load_row r = Ok r.
Proof.
  intros (Hp & Hg & Hn & Hi & Hm & Hd & Ht). unfold load_row.
  rewrite (settled_at_col _ _ _ Hp), bind_Ok_l, (settled_at_col _ _ _ Hg), bind_Ok_l,
    (settled_at_col _ _ _ Hn), bind_Ok_l, (settled_at_col _ _ _ Hi), bind_Ok_l,
    (settled_at_col _ _ _ Hm), bind_Ok_l, (settled_at_col _ _ _ Hd), bind_Ok_l,
    (settled_at_col _ _ _ Ht), bind_Ok_l.
  rewrite (settled_insert_id _ _ _ Hp), (settled_insert_id _ _ _ Hg),
    (settled_insert_id _ _ _ Hn), (settled_insert_id _ _ _ Hi),
    (settled_insert_id _ _ _ Hm), (settled_insert_id _ _ _ Hd),
    (settled_insert_id _ _ _ Ht).
  done.
Qed.

(** Every frame the loader returns is [loaded]. *)
Lemma load_loaded `{FloatRepr} st df : _load_products_df st = Ok df → loaded df.
Proof.
  intros (raw & -> & Hcols & Ec & F)%load_Ok. split.
  - intros c Hc. rewrite Ec. auto.
  - induction F as [|r r' l l' E _ IH]; constructor; [|done].
    by apply load_row_Ok in E as [? _].
Qed.

Lemma no_missing_columns (cols : list string) :
  (∀ c, c ∈ required_cols → c ∈ cols) →
  filter (λ c, c ∉ cols) required_cols = [].
Proof.
  intros Hall. destruct (filter _ _) as [|c l] eqn:E; [done|].
  assert (c ∈ filter (λ c, c ∉ cols) required_cols) as Hin
    by (rewrite E; apply list_elem_of_here).
  apply list_elem_of_filter in Hin as [Hn Hc]. destruct Hn. auto.
Qed.

(** The loader returns a loaded frame as it is. *)
Lemma load_settled `{FloatRepr} df : loaded df → _load_products_df (Some df) = Ok df.
Proof.
  intros [Hcols Hrows]. unfold _load_products_df. simpl.
  rewrite (no_missing_columns _ Hcols). simpl.
  rewrite assign_column_settled, bind_Ok_l
    by (eapply Forall_impl; [exact Hrows|]; by intros r (?&?&?&?&?&?&?)).
  rewrite assign_column_settled, bind_Ok_l
    by (eapply Forall_impl; [exact Hrows|]; by intros r (?&?&?&?&?&?&?)).
  rewrite assign_column_settled, bind_Ok_l
    by (eapply Forall_impl; [exact Hrows|]; by intros r (?&?&?&?&?&?&?)).
  rewrite assign_column_settled, bind_Ok_l
    by (eapply Forall_impl; [exact Hrows|]; by intros r (?&?&?&?&?&?&?)).
  rewrite assign_column_settled, bind_Ok_l
    by (eapply Forall_impl; [exact Hrows|]; by intros r (?&?&?&?&?&?&?)).
  rewrite assign_column_settled, bind_Ok_l
    by (eapply Forall_impl; [exact Hrows|]; by intros r (?&?&?&?&?&?&?)).
  rewrite assign_column_settled, bind_Ok_l
    by (eapply Forall_impl; [exact Hrows|]; by intros r (?&?&?&?&?&?&?)).
  done.
Qed.

Lemma load_missing `{FloatRepr} raw :
  filter (λ c, c ∉ columns raw) required_cols ≠ [] →
  _load_products_df (Some raw) =
    Raise (MissingColumns (filter (λ c, c ∉ columns raw) required_cols)).
Proof.
  intros Hne. unfold _load_products_df. simpl. by case_bool_decide.
Qed.

Lemma load_coercion_fails `{FloatRepr} raw r :
  r ∈ rows raw → coercion_fails r → ∃ e, _load_products_df (Some raw) = Raise e.
Proof.
  intros Hin Hfail. destruct (_load_products_df (Some raw)) as [df|e] eqn:E; [|eauto].
  apply load_Ok in E as (raw' & [= <-] & _ & _ & F).
  apply list_elem_of_lookup in Hin as [i Hi].
  destruct (Forall2_lookup_l _ _ _ _ _ F Hi) as (r' & _ & Er).
  by apply load_row_Ok in Er as [_ Hok].
Qed.

(** ** The lookup by product id *)

Lemma id_mask_matches product_id r :
  id_mask product_id r = true ↔ id_matches product_id r.
Proof.
  unfold id_mask, id_matches, series_eq, series_str_upper.
  destruct (at_col "product_id" r) as [| | |s]; try (split; [done | by intros (?&?&?)]).
  rewrite String.eqb_eq, upper_eq_iff. split.
  - intros E. eauto.
  - by intros (s' & [= <-] & E).
Qed.

Lemma index_where_nil mask l :
  index_where mask l = [] ↔ ∀ r, r ∈ l → mask r = false.
Proof.
  induction l as [|a l IH]; simpl.
  - split; [|done]. intros _ r Hr. by apply not_elem_of_nil in Hr.
  - split.
    + intros E. apply app_eq_nil in E as [Ea El].
      apply fmap_nil_inv in El. intros r [E|Hr]%elem_of_cons.
      * subst r. by destruct (mask a).
      * by apply IH.
    + intros Hall. rewrite (Hall a) by apply list_elem_of_here. simpl.
      rewrite (proj2 IH); [done|]. intros r Hr. apply Hall. by apply list_elem_of_further.
Qed.

(** The head of [df.index[mask]] is the position of the first row the mask
    selects. *)
Lemma index_where_first mask l i (r : row) :
  l !! i = Some r → mask r = true →
  (∀ j r', (j < i)%nat → l !! j = Some r' → mask r' = false) →
  ∃ rest, index_where mask l = i :: rest.
Proof.
  revert i. induction l as [|a l IH]; intros i Hi Hr Hbefore; [done|].
  destruct i as [|i]; simpl in *.
  - injection Hi as ->. rewrite Hr. simpl. eauto.
  - rewrite (Hbefore 0%nat a) by (done || lia). simpl.
    destruct (IH i Hi Hr) as [rest ->]; [|simpl; eauto].
    intros j r' Hj Hl. apply (Hbefore (S j) r'); [lia|done].
Qed.

Lemma index_where_head mask l i rest :
  index_where mask l = i :: rest →
  ∃ r : row, l !! i = Some r ∧ mask r = true ∧
    ∀ j r', (j < i)%nat → l !! j = Some r' → mask r' = false.
Proof.
  revert i rest. induction l as [|a l IH]; intros i rest E; [done|].
  simpl in E. destruct (mask a) eqn:Ha; simpl in E.
  - injection E as <- _. exists a. repeat split; [done|]. intros j r' Hj. lia.
  - destruct (index_where mask l) as [|k ks] eqn:Ek; [done|].
    simpl in E. injection E as <- _.
    destruct (IH k ks eq_refl) as (r & Hr & Hm & Hbefore).
    exists r. repeat split; [done..|].
    intros [|j] r' Hj Hl; simpl in Hl.
    + by injection Hl as <-.
    + apply (Hbefore j r'); [lia|done].
Qed.

Lemma filter_first mask l i (r : row) :
  l !! i = Some r → mask r = true →
  (∀ j r', (j < i)%nat → l !! j = Some r' → mask r' = false) →
  ∃ rest, List.filter mask l = r :: rest.
Proof.
  revert i. induction l as [|a l IH]; intros i Hi Hr Hbefore; [done|].
  destruct i as [|i]; simpl in *.
  - injection Hi as ->. rewrite Hr. eauto.
  - rewrite (Hbefore 0%nat a) by (done || lia).
    apply (IH i Hi Hr). intros j r' Hj Hl. apply (Hbefore (S j) r'); [lia|done].
Qed.

Lemma filter_nil mask (l : list row) :
  (∀ r, r ∈ l → mask r = false) → List.filter mask l = [].
Proof.
  induction l as [|a l IH]; intros Hall; simpl; [done|].
  rewrite (Hall a) by apply list_elem_of_here.
  apply IH. intros r Hr. apply Hall. by apply list_elem_of_further.
Qed.

Lemma resolves_mask product_id df i r :
  resolves product_id df i r →
  rows df !! i = Some r ∧ id_mask product_id r = true ∧
  ∀ j r', (j < i)%nat → rows df !! j = Some r' → id_mask product_id r' = false.
Proof.
  intros (Hi & Hm & Hbefore). repeat split; [done|by apply id_mask_matches|].
  intros j r' Hj Hl. destruct (id_mask product_id r') eqn:E; [|done].
  destruct (Hbefore j r' Hj Hl). by apply id_mask_matches.
Qed.

Lemma unknown_mask product_id (l : list row) :
  (∀ r, r ∈ l → ¬ id_matches product_id r) →
  ∀ r, r ∈ l → id_mask product_id r = false.
Proof.
  intros Hall r Hr. destruct (id_mask product_id r) eqn:E; [|done].
  destruct (Hall r Hr). by apply id_mask_matches.
Qed.

(** When one record only matches the id, the lookup resolves to it. *)
Lemma only_match_resolves product_id df i r :
  rows df !! i = Some r → id_matches product_id r →
  (∀ j r', rows df !! j = Some r' → id_matches product_id r' → j = i) →
  resolves product_id df i r.
Proof.
  intros Hi Hm Honly. repeat split; [done..|].
  intros j r' Hj Hl Hm'. specialize (Honly j r' Hl Hm'). lia.
Qed.

(** Every id is unknown to the frame or resolved to its first match. *)
Lemma resolves_or_unknown product_id df :
  (∀ r, r ∈ rows df → ¬ id_matches product_id r) ∨
  (∃ i r, resolves product_id df i r).
Proof.
  destruct (index_where (id_mask product_id) (rows df)) as [|i rest] eqn:E.
  - left. intros r Hr Hm. apply id_mask_matches in Hm.
    rewrite (proj1 (index_where_nil _ _) E r Hr) in Hm. done.
  - right. apply index_where_head in E as (r & Hi & Hm & Hbefore).
    exists i, r. repeat split; [done|by apply id_mask_matches|].
    intros j r' Hj Hl Hm'. apply id_mask_matches in Hm'.
    by rewrite (Hbefore j r' Hj Hl) in Hm'.
Qed.

(** ** Checkout, case by case *)

Lemma df_at_lookup i c df r : rows df !! i = Some r → df_at i c df = at_col c r.
Proof. intros E. unfold df_at. by rewrite E. Qed.

Lemma loaded_row_restock `{FloatRepr} r z :
  loaded_row r → loaded_row (<["inventory_count" := VInt z]> r).
Proof.
  intros (Hp & Hg & Hn & Hi & Hm & Hd & Ht).
  repeat split; try (apply settled_insert_ne; [column_neq|done]).
  by apply settled_insert.
Qed.

Lemma sold_lookup i q df r :
  rows df !! i = Some r →
  rows (sold i q df) !! i =
    Some (<["inventory_count" := VInt (inventory_count r - q)]> r).
Proof.
  intros E. unfold sold, df_set_at. simpl.
  rewrite list_lookup_alter_eq, E. simpl.
  by rewrite (df_at_lookup _ _ _ _ E).
Qed.

Lemma sold_lookup_ne i j q df : i ≠ j → rows (sold i q df) !! j = rows df !! j.
Proof. intros Hne. unfold sold, df_set_at. simpl. by apply list_lookup_alter_ne. Qed.

Lemma sold_loaded `{FloatRepr} i q df : loaded df → loaded (sold i q df).
Proof.
  intros [Hcols Hrows]. split; [done|].
  unfold sold, df_set_at. simpl. apply Forall_alter; [done|].
  intros r _ Hr. by apply loaded_row_restock.
Qed.

Lemma checkout_invalid `{FloatRepr} product_id quantity urandom st :
  (quantity ≤ 0)%Z →
  checkout_internal product_id quantity urandom st =
    (Ok (InvalidQuantity "Quantity must be >= 1"), st).
Proof.
  intros Hq. unfold checkout_internal.
  by rewrite (proj2 (Z.leb_le quantity 0) Hq).
Qed.

Lemma checkout_load_raises `{FloatRepr} product_id quantity urandom st e :
  (0 < quantity)%Z → _load_products_df st = Raise e →
  checkout_internal product_id quantity urandom st = (Raise e, st).
Proof.
  intros Hq E. unfold checkout_internal.
  rewrite (proj2 (Z.leb_gt quantity 0) Hq). by rewrite E.
Qed.

Lemma checkout_unknown `{FloatRepr} product_id quantity urandom st df :
  (0 < quantity)%Z → _load_products_df st = Ok df →
  (∀ r, r ∈ rows df → ¬ id_matches product_id r) →
  checkout_internal product_id quantity urandom st = (Ok (NotFound product_id), st).
Proof.
  intros Hq E Hnone. unfold checkout_internal.
  rewrite (proj2 (Z.leb_gt quantity 0) Hq), E.
  by rewrite (proj2 (index_where_nil _ _) (unknown_mask _ _ Hnone)).
Qed.

Lemma checkout_insufficient `{FloatRepr} product_id quantity urandom st df i r :
  (0 < quantity)%Z → _load_products_df st = Ok df →
  resolves product_id df i r → (inventory_count r < quantity)%Z →
  checkout_internal product_id quantity urandom st =
    (Ok (InsufficientInventory (inventory_count r)), st).
Proof.
  intros Hq E (Hi & Hm & Hbefore)%resolves_mask Hlt. unfold checkout_internal.
  rewrite (proj2 (Z.leb_gt quantity 0) Hq), E.
  destruct (index_where_first _ _ _ _ Hi Hm Hbefore) as [rest ->].
  rewrite (df_at_lookup _ _ _ _ Hi). fold (inventory_count r).
  by rewrite (proj2 (Z.ltb_lt _ _) Hlt).
Qed.

Lemma checkout_purchase `{FloatRepr} product_id quantity urandom st df i r :
  (0 < quantity)%Z → _load_products_df st = Ok df →
  resolves product_id df i r → (quantity ≤ inventory_count r)%Z →
  checkout_internal product_id quantity urandom st =
    (Ok (CheckoutOk
           {| order_id := "ORD-" +:+ bytes_hex urandom;
              order_product_id := at_col "product_id" r;
              order_product_name := at_col "product_name" r;
              qty := quantity;
              unit_price := price r;
              total_price := py_round2 (float_mul_int (price r) quantity) |}),
     Some (sold i quantity df)).
Proof.
  intros Hq E (Hi & Hm & Hbefore)%resolves_mask Hle. unfold checkout_internal.
  rewrite (proj2 (Z.leb_gt quantity 0) Hq), E.
  destruct (index_where_first _ _ _ _ Hi Hm Hbefore) as [rest ->].
  rewrite (df_at_lookup _ _ _ _ Hi). fold (inventory_count r).
  rewrite (proj2 (Z.ltb_ge _ _) Hle).
  pose proof (sold_lookup i quantity df r Hi) as Hs. unfold sold in Hs.
  rewrite (df_at_lookup _ _ _ _ Hi) in Hs. fold (inventory_count r) in Hs.
  rewrite !(df_at_lookup _ _ _ _ Hs).
  rewrite !at_col_insert_ne by column_neq.
  unfold _save_products_df, sold, price.
  by rewrite (df_at_lookup _ _ _ _ Hi).
Qed.

(** ** The order of the recommendations *)

Lemma Qle_bool_false x y : Qle_bool x y = false ↔ (y < x)%Q.
Proof.
  split.
  - intros E. apply Qnot_le_lt. intros Hle. apply Qle_bool_iff in Hle. congruence.
  - intros Hlt. destruct (Qle_bool x y) eqn:E; [|done].
    apply Qle_bool_iff in E. lra.
Qed.

Lemma Qeq_bool_false x y : Qeq_bool x y = false ↔ ¬ (x == y)%Q.
Proof.
  split.
  - intros E Heq. apply Qeq_bool_iff in Heq. congruence.
  - intros Hne. destruct (Qeq_bool x y) eqn:E; [|done].
    apply Qeq_bool_iff in E. done.
Qed.

Ltac q_props :=
  repeat match goal with
  | H : Qle_bool _ _ = true |- _ => apply Qle_bool_iff in H
  | H : Qle_bool _ _ = false |- _ => apply Qle_bool_false in H
  | H : Qeq_bool _ _ = true |- _ => apply Qeq_bool_iff in H
  | H : Qeq_bool _ _ = false |- _ => apply Qeq_bool_false in H
  | |- Qle_bool _ _ = true => apply Qle_bool_iff
  | |- Qle_bool _ _ = false => apply Qle_bool_false
  | |- Qeq_bool _ _ = true => apply Qeq_bool_iff
  | |- Qeq_bool _ _ = false => apply Qeq_bool_false
  end.

Ltac q_cases :=
  repeat match goal with
  | |- context [Qeq_bool ?u ?v] => destruct (Qeq_bool u v) eqn:?
  | |- context [Qle_bool ?u ?v] => destruct (Qle_bool u v) eqn:?
  end.

(** Goals about the three key comparisons, by cases on the keys. *)
Ltac key_order :=
  unfold key_eq, key_le, key_ge;
  repeat match goal with
  | x : option Q |- _ => destruct x as [?|]
  end;
  q_cases; intros; q_props; try done; try lra.

Lemma key_eq_sym a b : key_eq a b = key_eq b a.
Proof. key_order. Qed.

Lemma key_eq_l a b c : key_eq a b = true → key_eq a c = key_eq b c.
Proof. key_order. Qed.

Lemma key_eq_r a b c : key_eq b c = true → key_eq a b = key_eq a c.
Proof. key_order. Qed.

Lemma key_ge_l a b c : key_eq a b = true → key_ge a c = key_ge b c.
Proof. key_order. Qed.

Lemma key_ge_r a b c : key_eq b c = true → key_ge a b = key_ge a c.
Proof. key_order. Qed.

Lemma key_le_trans a b c : key_le a b = true → key_le b c = true → key_le a c = true.
Proof. key_order. Qed.

Lemma key_le_total a b : key_le a b = false → key_le b a = true.
Proof. key_order. Qed.

Lemma key_gt_trans a b c :
  key_eq a b = false → key_ge a b = true →
  key_eq b c = false → key_ge b c = true →
  key_eq a c = false ∧ key_ge a c = true.
Proof.
  cut ((key_eq a b = false → key_ge a b = true →
        key_eq b c = false → key_ge b c = true → key_eq a c = false) ∧
       (key_eq a b = false → key_ge a b = true →
        key_eq b c = false → key_ge b c = true → key_ge a c = true)).
  { intros [H1 H2] ????. split; auto. }
  split; key_order.
Qed.

Lemma key_ge_total a b : key_eq a b = false → key_ge a b = false → key_ge b a = true.
Proof. key_order. Qed.

Lemma row_le_total a b : row_le a b = false → row_le b a = true.
Proof.
  unfold row_le. rewrite (key_eq_sym (num (at_col "rating" b))).
  destruct (key_eq _ _) eqn:E.
  - apply key_le_total.
  - by apply key_ge_total.
Qed.

Lemma row_le_trans a b c : row_le a b = true → row_le b c = true → row_le a c = true.
Proof.
  unfold row_le.
  destruct (key_eq (num (at_col "rating" a)) (num (at_col "rating" b))) eqn:Eab,
    (key_eq (num (at_col "rating" b)) (num (at_col "rating" c))) eqn:Ebc.
  - rewrite (key_eq_l _ _ _ Eab), Ebc. apply key_le_trans.
  - rewrite (key_eq_l _ _ _ Eab), Ebc, (key_ge_l _ _ _ Eab). done.
  - rewrite <- (key_eq_r _ _ _ Ebc), Eab, <- (key_ge_r _ _ _ Ebc). done.
  - intros Hab Hbc. destruct (key_gt_trans _ _ _ Eab Hab Ebc Hbc) as [-> ->]. done.
Qed.

(** The comparison of the sort is the order the specification names. *)
Lemma row_le_ranks a b : row_le a b = true → ranks_before a b.
Proof.
  unfold row_le, ranks_before, price_ascending, rating, price, py_float.
  destruct (num (at_col "rating" a)) as [x|], (num (at_col "rating" b)) as [y|];
    destruct (num (at_col "price" a)) as [p|], (num (at_col "price" b)) as [q|];
    unfold key_eq, key_le, key_ge; q_cases; intros; q_props; try done;
    try (left; lra); try (right; split; [lra|lra]); try (right; split; [lra|done]).
Qed.

Lemma insert_sorted_elem x y l : y ∈ insert_sorted x l ↔ y = x ∨ y ∈ l.
Proof.
  induction l as [|a l IH]; simpl.
  - rewrite list_elem_of_singleton, elem_of_nil. tauto.
  - destruct (row_le x a).
    + by rewrite elem_of_cons.
    + rewrite !elem_of_cons, IH. tauto.
Qed.

Lemma insert_sorted_length x l : length (insert_sorted x l) = S (length l).
Proof.
  induction l as [|a l IH]; simpl; [done|].
  destruct (row_le x a); simpl; [done|]. by rewrite IH.
Qed.

Lemma insert_sorted_Sorted x l :
  StronglySorted (λ a b, row_le a b = true) l →
  StronglySorted (λ a b, row_le a b = true) (insert_sorted x l).
Proof.
  induction 1 as [|a l Hl IH Ha]; simpl.
  - repeat constructor.
  - destruct (row_le x a) eqn:E.
    + constructor; [by constructor|]. constructor; [done|].
      eapply Forall_impl; [exact Ha|]. simpl. intros b. by apply row_le_trans.
    + constructor; [done|]. apply Forall_forall. intros b Hb.
      apply insert_sorted_elem in Hb as [->|Hb].
      * by apply row_le_total.
      * rewrite Forall_forall in Ha. by apply Ha.
Qed.

Lemma sort_values_elem r df : r ∈ rows (sort_values df) ↔ r ∈ rows df.
Proof.
  unfold sort_values. simpl. induction (rows df) as [|a l IH]; simpl; [done|].
  rewrite insert_sorted_elem, elem_of_cons, IH. done.
Qed.

Lemma sort_values_length df : length (rows (sort_values df)) = length (rows df).
Proof.
  unfold sort_values. simpl. induction (rows df) as [|a l IH]; simpl; [done|].
  by rewrite insert_sorted_length, IH.
Qed.

Lemma sort_values_Sorted df : StronglySorted ranks_before (rows (sort_values df)).
Proof.
  assert (StronglySorted (λ a b, row_le a b = true) (rows (sort_values df))) as Hs.
  { unfold sort_values. simpl. induction (rows df) as [|a l IH]; simpl.
    - constructor.
    - by apply insert_sorted_Sorted. }
  induction Hs as [|a l _ IH Ha]; constructor; [done|].
  eapply Forall_impl; [exact Ha|]. apply row_le_ranks.
Qed.

Lemma take_StronglySorted {A} (R : A → A → Prop) n l :
  StronglySorted R l → StronglySorted R (take n l).
Proof.
  intros Hs. revert n. induction Hs as [|a l _ IH Ha]; intros [|n]; simpl;
    try constructor; [apply IH|].
  apply Forall_forall. intros b Hb. rewrite Forall_forall in Ha.
  apply Ha. by apply (subseteq_take n l).
Qed.

Lemma head_elem r n df : r ∈ rows (head n df) → r ∈ rows df.
Proof. unfold head. simpl. destruct (0 <=? n)%Z; apply subseteq_take. Qed.

Lemma head_Sorted {R : row → row → Prop} n df :
  StronglySorted R (rows df) → StronglySorted R (rows (head n df)).
Proof. unfold head. simpl. destruct (0 <=? n)%Z; apply take_StronglySorted. Qed.

Lemma head_length n df :
  (0 ≤ n)%Z → (Z.of_nat (length (rows (head n df))) ≤ n)%Z.
Proof.
  intros Hn. unfold head. simpl. rewrite (proj2 (Z.leb_le 0 n) Hn).
  rewrite length_take. lia.
Qed.

(** ** The filter *)

Lemma elem_of_List_filter (mask : row → bool) l r :
  r ∈ List.filter mask l ↔ r ∈ l ∧ mask r = true.
Proof. rewrite !list_elem_of_In. apply filter_In. Qed.

Lemma narrow_if_elem {A} (x : option A) mask (P : A → row → Prop) df r :
  (∀ a, mask a r = true ↔ P a r) →
  r ∈ rows (narrow_if x mask df) ↔ r ∈ rows df ∧ ∀ a, x = Some a → P a r.
Proof.
  intros HP. destruct x as [a|]; simpl.
  - rewrite elem_of_List_filter, HP. split.
    + intros [Hr Ha]. split; [done|]. by intros a' [= <-].
    + intros [Hr Ha]. auto.
  - split; [|tauto]. intros Hr. split; [done|]. intros a E. discriminate E.
Qed.

Lemma type_mask_spec t r :
  series_eq (series_str_lower (at_col "type" r)) (PyStr.lower (PyStr.strip t)) = true
  ↔ type_is t r.
Proof.
  unfold type_is, eq_ignore_case, series_eq, series_str_lower.
  destruct (at_col "type" r) as [| | |s]; try (split; [done | by intros (?&?&?)]).
  rewrite String.eqb_eq. split.
  - intros E. eauto.
  - by intros (s' & [= <-] & E).
Qed.

Lemma series_ge_rating x r :
  series_ge (at_col "rating" r) x = true ↔ rating_at_least x r.
Proof.
  unfold series_ge, rating_at_least, rating, py_float.
  destruct (num (at_col "rating" r)) as [q|].
  - rewrite Qle_bool_iff. split; [eauto|]. by intros (q' & [= <-] & Hle).
  - split; [done|]. by intros (q' & E & _).
Qed.

Lemma series_ge_price x r :
  series_ge (at_col "price" r) x = true ↔ price_at_least x r.
Proof.
  unfold series_ge, price_at_least, price, py_float.
  destruct (num (at_col "price" r)) as [q|].
  - rewrite Qle_bool_iff. split; [eauto|]. by intros (q' & [= <-] & Hle).
  - split; [done|]. by intros (q' & E & _).
Qed.

Lemma series_le_price x r :
  series_le (at_col "price" r) x = true ↔ price_at_most x r.
Proof.
  unfold series_le, price_at_most, price, py_float.
  destruct (num (at_col "price" r)) as [q|].
  - rewrite Qle_bool_iff. split; [eauto|]. by intros (q' & [= <-] & Hle).
  - split; [done|]. by intros (q' & E & _).
Qed.

Lemma given_Some product_type t :
  given product_type = Some t ↔ product_type = Some t ∧ t ≠ "".
Proof.
  unfold given. destruct product_type as [[|c s]|]; simpl.
  - split; [done|]. by intros [[= <-] Hne].
  - split; [by intros [= <-]|]. by intros [[= <-] _].
  - split; [done|]. by intros [E _].
Qed.

(** The filter keeps the rows that pass the predicates it applies. *)
Lemma narrowed_elem product_type min_rating min_price max_price df r :
  r ∈ rows (narrowed product_type min_rating min_price max_price df) ↔
  r ∈ rows df ∧ passes product_type min_rating min_price max_price r.
Proof.
  unfold narrowed, passes.
  rewrite (narrow_if_elem max_price _ price_at_most) by (intros ?; apply series_le_price).
  rewrite (narrow_if_elem min_price _ price_at_least) by (intros ?; apply series_ge_price).
  rewrite (narrow_if_elem min_rating _ rating_at_least) by (intros ?; apply series_ge_rating).
  rewrite (narrow_if_elem (given product_type) _ type_is) by (intros ?; apply type_mask_spec).
  split.
  - intros [[[[Hr Ht] Hg] Hp] Hx]. repeat split; try done.
    intros t E Hne. apply Ht. by apply given_Some.
  - intros (Hr & Ht & Hg & Hp & Hx). repeat split; try done.
    intros t [E Hne]%given_Some. by apply Ht.
Qed.

(** What the filter returns once the file has loaded. *)
Lemma filter_products_run `{FloatRepr}
    product_type min_rating min_price max_price top_n st df :
  _load_products_df st = Ok df →
  filter_products_internal product_type min_rating min_price max_price top_n st =
    Ok (FilterOk
          (length (rows (head top_n (sort_values
             (narrowed product_type min_rating min_price max_price df)))))
          (rows (head top_n (sort_values
             (narrowed product_type min_rating min_price max_price df))))).
Proof.
  intros El. unfold filter_products_internal. rewrite El, bind_Ok_l.
  fold (narrowed product_type min_rating min_price max_price df).
  destruct (rows (narrowed product_type min_rating min_price max_price df)) eqn:E;
    [|done].
  unfold head, sort_values. simpl. rewrite E. simpl.
  by destruct (0 <=? top_n)%Z; rewrite ?take_nil.
Qed.

(** ** The search *)

Lemma re_compile_plain q : plain q = true → re_compile q = Some (literal q).
Proof.
  unfold plain, literal. induction q as [|c q IH]; simpl; [done|].
  intros [Hc Hq]%andb_prop. rewrite (IH Hq). simpl.
  destruct (Ascii.eqb c ".") eqn:E.
  - apply Ascii.eqb_eq in E. subst c. done.
  - apply negb_true_iff in Hc. by rewrite Hc.
Qed.

Lemma re_match_literal q s :
  re_match (literal q) s = true ↔ ∃ post, s = q +:+ post.
Proof.
  unfold literal. revert s. induction q as [|c q IH]; intros s; simpl.
  - split; [eauto|done].
  - destruct s as [|d s]; simpl.
    + split; [done|]. by intros [post E].
    + rewrite andb_true_iff, Ascii.eqb_eq, IH. split.
      * intros [-> [post ->]]. eauto.
      * intros [post [= -> ->]]. eauto.
Qed.

Lemma re_search_literal q s :
  re_search (literal q) s = true ↔ PyStr.substring_of q s.
Proof.
  unfold PyStr.substring_of. induction s as [|d s IH]; simpl.
  - rewrite orb_false_r, re_match_literal. split.
    + intros [post E]. by exists "", post.
    + intros ([|c pre] & post & E); [eauto|done].
  - rewrite orb_true_iff, re_match_literal, IH. split.
    + intros [[post E]|(pre & post & ->)].
      * by exists "", post.
      * by exists (String d pre), post.
    + intros ([|c pre] & post & E).
      * left. eauto.
      * right. injection E as -> ->. eauto.
Qed.

Lemma List_filter_sublist (mask : row → bool) l : sublist (List.filter mask l) l.
Proof.
  induction l as [|a l IH]; simpl; [constructor|].
  destruct (mask a); by constructor.
Qed.

Lemma contains_literal q v :
  series_str_contains (literal q) (series_str_lower v) = true ↔
  ∃ s, v = VStr s ∧ PyStr.substring_of q (PyStr.lower s).
Proof.
  destruct v as [| | |s]; simpl; try (split; [done | by intros (?&?&?)]).
  rewrite re_search_literal. split; [eauto|]. by intros (s' & [= <-] & Hs).
Qed.

(** * The claims *)

(** C8.  The load is all or nothing.  When a required column is missing the
    load raises an error that lists exactly the required columns the file
    lacks.  When a row's price, rating or inventory count fails its numeric
    conversion the load raises.  When the load returns, the frame has the
    columns of the file and every row of the file, each one converted and
    valid.  The loader is a function of the file alone and writes nothing. *)
Theorem load_all_or_nothing `{FloatRepr} (raw : DataFrame) :
  ((∃ c, c ∈ required_cols ∧ c ∉ columns raw) →
     ∃ missing, _load_products_df (Some raw) = Raise (MissingColumns missing) ∧
       ∀ c, c ∈ missing ↔ c ∈ required_cols ∧ c ∉ columns raw) ∧
  (∀ r, r ∈ rows raw → coercion_fails r →
     ∃ e, _load_products_df (Some raw) = Raise e) ∧
  (∀ df, _load_products_df (Some raw) = Ok df →
     columns df = columns raw ∧
     Forall2 (λ r r', load_row r = Ok r') (rows raw) (rows df) ∧
     loaded df).
Proof.
  split; [|split].
  - intros (c & Hc & Hn).
    exists (filter (λ c, c ∉ columns raw) required_cols). split.
    + apply load_missing. intros E.
      assert (c ∈ filter (λ c, c ∉ columns raw) required_cols) as Hin
        by (apply list_elem_of_filter; done).
      rewrite E in Hin. by apply not_elem_of_nil in Hin.
    + intros c'. rewrite list_elem_of_filter. tauto.
  - intros r. apply load_coercion_fails.
  - intros df E. pose proof (load_loaded _ _ E) as Hl.
    apply load_Ok in E as (raw' & [= <-] & _ & Ec & F). done.
Qed.

Lemma load_all_or_nothing_witness :
  (∃ missing, _load_products_df (Some short_file) = Raise (MissingColumns missing) ∧
     ∀ c, c ∈ missing ↔ c ∈ required_cols ∧ c ∉ columns short_file) ∧
  (∃ e, _load_products_df (Some priceless_file) = Raise e) ∧
  (columns imported = columns exported ∧
   Forall2 (λ r r', load_row r = Ok r') (rows exported) (rows imported) ∧
   loaded imported).
Proof.
  split; [|split].
  - apply (proj1 (load_all_or_nothing short_file)).
    exists "rating". split; [|vm_compute; intros Hin].
    + do 5 apply list_elem_of_further. apply list_elem_of_here.
    + repeat (apply elem_of_cons in Hin as [Hin|Hin]; [discriminate Hin|]).
      by apply elem_of_nil in Hin.
  - apply (proj1 (proj2 (load_all_or_nothing priceless_file))
             (<["price" := VStr "ask"]> kettle)).
    + apply list_elem_of_further, list_elem_of_here.
    + left. exists UnableToParse. reflexivity.
  - apply (proj2 (proj2 (load_all_or_nothing exported)) imported).
    vm_compute. reflexivity.
Defined.





(** C2.  Checkout checks its preconditions in a fixed order.  A quantity
    that is not positive is refused as invalid whatever the file and the
    product id are.  For a positive quantity, a product id that matches no
    record of the loaded catalog is reported as not found.  For a positive
    quantity and a product id the lookup resolves, an inventory count below
    the quantity is refused as insufficient, and the available quantity
    reported is the inventory count the record had before the call.  In all
    three cases the file is left as it was. *)
Theorem checkout_precondition_order `{FloatRepr} product_id quantity urandom st :
  ((quantity ≤ 0)%Z →
     checkout_internal product_id quantity urandom st =
       (Ok (InvalidQuantity "Quantity must be >= 1"), st)) ∧
  (∀ df, (0 < quantity)%Z → _load_products_df st = Ok df →
     (∀ r, r ∈ rows df → ¬ id_matches product_id r) →
     checkout_internal product_id quantity urandom st =
       (Ok (NotFound product_id), st)) ∧
  (∀ df i r, (0 < quantity)%Z → _load_products_df st = Ok df →
     resolves product_id df i r → (inventory_count r < quantity)%Z →
     checkout_internal product_id quantity urandom st =
       (Ok (InsufficientInventory (inventory_count r)), st)).
Proof.
  split; [|split].
  - apply checkout_invalid.
  - intros df. apply checkout_unknown.
  - intros df i r. apply checkout_insufficient.
Qed.

Lemma checkout_precondition_order_witness :
  checkout_internal "nothing" (-1) [] None =
    (Ok (InvalidQuantity "Quantity must be >= 1"), None) ∧
  checkout_internal "P9" 11 [] shop = (Ok (NotFound "P9"), shop) ∧
  checkout_internal "p1" 11 [] shop =
    (Ok (InsufficientInventory (inventory_count laptop)), shop).
Proof.
  split; [|split].
  - apply (proj1 (checkout_precondition_order "nothing" (-1) [] None)).
    vm_compute. discriminate.
  - apply (proj1 (proj2 (checkout_precondition_order "P9" 11 [] shop))
             (frame [laptop; kettle; returned_mug])).
    + reflexivity.
    + vm_compute. reflexivity.
    + intros r Hr (s & Es & Em).
      repeat (apply elem_of_cons in Hr as [->|Hr];
              [vm_compute in Es; injection Es as <-; vm_compute in Em; discriminate Em|]).
      by apply elem_of_nil in Hr.
  - apply (proj2 (proj2 (checkout_precondition_order "p1" 11 [] shop))
             (frame [laptop; kettle; returned_mug]) 0%nat laptop).
    + reflexivity.
    + vm_compute. reflexivity.
    + split; [reflexivity|]. split.
      * exists "P1". split; reflexivity.
      * intros j r' Hj. lia.
    + reflexivity.
Defined.

(** C3.  A checkout that fails, with an error result or with an exception of
    the loader, leaves the file as it was: loading after the call gives what
    loading before the call gave. *)
Theorem failed_checkout_keeps_catalog `{FloatRepr} product_id quantity urandom st res st' :
  checkout_internal product_id quantity urandom st = (res, st') →
  checkout_failed res →
  st' = st ∧ _load_products_df st' = _load_products_df st.
Proof.
  intros E Hfail. cut (st' = st); [by intros ->|].
  destruct (Z_le_gt_dec quantity 0) as [Hq|Hq].
  - rewrite checkout_invalid in E by done. by injection E as _ <-.
  - apply Z.gt_lt in Hq.
    destruct (_load_products_df st) as [df|e] eqn:El.
    + destruct (resolves_or_unknown product_id df) as [Hnone|(i & r & Hres)].
      * rewrite (checkout_unknown _ _ _ _ df) in E by done. by injection E as _ <-.
      * destruct (Z_lt_le_dec (inventory_count r) quantity) as [Hlt|Hle].
        -- rewrite (checkout_insufficient _ _ _ _ df i r) in E by done.
           by injection E as _ <-.
        -- rewrite (checkout_purchase _ _ _ _ df i r) in E by done.
           injection E as <- _. done.
    + rewrite (checkout_load_raises _ _ _ _ e) in E by done. by injection E as _ <-.
Qed.

Lemma failed_checkout_keeps_catalog_witness :
  checkout_internal "p2" 4 [] shop = (Ok (InsufficientInventory 3), shop) ∧
  shop = shop ∧ _load_products_df shop = _load_products_df shop.
Proof.
  assert (checkout_internal "p2" 4 [] shop = (Ok (InsufficientInventory 3), shop)) as E
    by (vm_compute; reflexivity).
  split; [exact E|].
  exact (failed_checkout_keeps_catalog "p2" 4 [] shop _ shop E I).
Defined.

Lemma checkout_Ok_inv `{FloatRepr} product_id quantity urandom st df o st' :
  _load_products_df st = Ok df →
  checkout_internal product_id quantity urandom st = (Ok (CheckoutOk o), st') →
  ∃ i r, resolves product_id df i r ∧ (0 < quantity)%Z ∧
    (quantity ≤ inventory_count r)%Z ∧ st' = Some (sold i quantity df).
Proof.
  intros El E.
  destruct (Z_le_gt_dec quantity 0) as [Hq|Hq].
  { rewrite checkout_invalid in E by done. discriminate E. }
  apply Z.gt_lt in Hq.
  destruct (resolves_or_unknown product_id df) as [Hnone|(i & r & Hres)].
  { rewrite (checkout_unknown _ _ _ _ df) in E by done. discriminate E. }
  destruct (Z_lt_le_dec (inventory_count r) quantity) as [Hlt|Hle].
  { rewrite (checkout_insufficient _ _ _ _ df i r) in E by done. discriminate E. }
  rewrite (checkout_purchase _ _ _ _ df i r) in E by done.
  injection E as _ <-. by exists i, r.
Qed.

(** C4, as the code has it.  Every record of a catalog the loader returns
    has an integer as inventory count; the loader does not ask it to be
    non-negative.  A successful checkout on a catalog whose inventory counts
    are all non-negative persists a catalog whose inventory counts are all
    non-negative.  A checkout that asks for more than the record has is
    refused as insufficient and leaves the file as it was: nothing is
    clamped. *)
Theorem inventory_stays_non_negative `{FloatRepr} st df :
  _load_products_df st = Ok df →
  (∀ r, r ∈ rows df → ∃ z, at_col "inventory_count" r = VInt z) ∧
  (∀ product_id quantity urandom o st',
     checkout_internal product_id quantity urandom st = (Ok (CheckoutOk o), st') →
     (∀ r, r ∈ rows df → (0 ≤ inventory_count r)%Z) →
     ∃ df', _load_products_df st' = Ok df' ∧
       ∀ r', r' ∈ rows df' → (0 ≤ inventory_count r')%Z) ∧
  (∀ product_id quantity urandom i r,
     resolves product_id df i r → (0 < quantity)%Z →
     (inventory_count r < quantity)%Z →
     checkout_internal product_id quantity urandom st =
       (Ok (InsufficientInventory (inventory_count r)), st)).
Proof.
  intros El. pose proof (load_loaded _ _ El) as [Hcols Hrows].
  split; [|split].
  - intros r Hr. rewrite Forall_forall in Hrows.
    destruct (Hrows r Hr) as (_ & _ & Hn & _).
    by apply settled_inventory_cast.
  - intros product_id quantity urandom o st' E Hnn.
    apply (checkout_Ok_inv _ _ _ _ df) in E as (i & r & Hres & Hq & Hle & ->); [|done].
    exists (sold i quantity df). split.
    + apply load_settled, sold_loaded. by split.
    + intros r' [j Hj]%list_elem_of_lookup.
      destruct (decide (i = j)) as [<-|Hne].
      * rewrite (sold_lookup _ _ _ r) in Hj by apply Hres.
        injection Hj as <-. unfold inventory_count at 1. rewrite at_col_insert.
        simpl. lia.
      * rewrite sold_lookup_ne in Hj by done.
        apply Hnn. by apply list_elem_of_lookup_2 in Hj.
  - intros product_id quantity urandom i r Hres Hq Hlt.
    by apply (checkout_insufficient _ _ _ _ df i r).
Qed.

Lemma inventory_stays_non_negative_witness :
  (∀ r, r ∈ rows (frame [laptop; kettle]) → ∃ z, at_col "inventory_count" r = VInt z) ∧
  (∀ product_id quantity urandom o st',
     checkout_internal product_id quantity urandom (catalog [laptop; kettle]) =
       (Ok (CheckoutOk o), st') →
     (∀ r, r ∈ rows (frame [laptop; kettle]) → (0 ≤ inventory_count r)%Z) →
     ∃ df', _load_products_df st' = Ok df' ∧
       ∀ r', r' ∈ rows df' → (0 ≤ inventory_count r')%Z) ∧
  (∀ product_id quantity urandom i r,
     resolves product_id (frame [laptop; kettle]) i r → (0 < quantity)%Z →
     (inventory_count r < quantity)%Z →
     checkout_internal product_id quantity urandom (catalog [laptop; kettle]) =
       (Ok (InsufficientInventory (inventory_count r)), catalog [laptop; kettle])).
Proof.
  apply (inventory_stays_non_negative (catalog [laptop; kettle]) (frame [laptop; kettle])).
  vm_compute. reflexivity.
Defined.

(** The loader accepts a negative inventory count: the claim C4 as stated
    does not hold of the third record of [shop]. *)
Lemma load_keeps_negative_inventory :
  _load_products_df shop = Ok (frame [laptop; kettle; returned_mug]) ∧
  returned_mug ∈ rows (frame [laptop; kettle; returned_mug]) ∧
  ¬ (0 ≤ inventory_count returned_mug)%Z.
Proof.
  split; [vm_compute; reflexivity|]. split.
  - do 2 apply list_elem_of_further. apply list_elem_of_here.
  - vm_compute. intros Hle. by apply Hle.
Qed.

(** C6.  When the lookup resolves the product id (trimmed, compared without
    regard to case) to a record, the inventory check succeeds and reports
    the record's id, name, price, rating and inventory count, and reports it
    in stock exactly when the inventory count is positive.  When no record
    matches, the check reports not found together with the id as it was
    requested. *)
Theorem check_inventory_reports `{FloatRepr} product_id st df :
  _load_products_df st = Ok df →
  (∀ i r, resolves product_id df i r →
     ∃ info, check_inventory_internal product_id st = Ok (InventoryOk info) ∧
       inv_inventory_count info = inventory_count r ∧
       (inv_in_stock info = true ↔ (inv_inventory_count info > 0)%Z) ∧
       inv_product_id info = at_col "product_id" r ∧
       inv_product_name info = at_col "product_name" r ∧
       inv_price info = price r ∧
       inv_rating info = rating r) ∧
  ((∀ r, r ∈ rows df → ¬ id_matches product_id r) →
     check_inventory_internal product_id st = Ok (InventoryNotFound product_id)).
Proof.
  intros El. split.
  - intros i r (Hi & Hm & Hbefore)%resolves_mask.
    unfold check_inventory_internal. rewrite El, bind_Ok_l. simpl.
    destruct (filter_first _ _ _ _ Hi Hm Hbefore) as [rest ->].
    eexists. split; [reflexivity|]. simpl.
    repeat split; try done.
    + intros Hlt%Z.ltb_lt. unfold inventory_count. lia.
    + intros Hgt. apply Z.ltb_lt. unfold inventory_count in Hgt. lia.
  - intros Hnone. unfold check_inventory_internal. rewrite El, bind_Ok_l. simpl.
    by rewrite (filter_nil _ _ (unknown_mask _ _ Hnone)).
Qed.

Lemma check_inventory_reports_witness :
  (∃ info, check_inventory_internal " p2 " shop = Ok (InventoryOk info) ∧
     inv_inventory_count info = inventory_count kettle ∧
     (inv_in_stock info = true ↔ (inv_inventory_count info > 0)%Z) ∧
     inv_product_id info = at_col "product_id" kettle ∧
     inv_product_name info = at_col "product_name" kettle ∧
     inv_price info = price kettle ∧
     inv_rating info = rating kettle) ∧
  check_inventory_internal "P9" shop = Ok (InventoryNotFound "P9").
Proof.
  assert (_load_products_df shop = Ok (frame [laptop; kettle; returned_mug])) as El
    by (vm_compute; reflexivity).
  split.
  - apply (proj1 (check_inventory_reports " p2 " shop _ El) 1%nat kettle).
    split; [reflexivity|]. split.
    + exists "P2". split; reflexivity.
    + intros [|j] r' Hj Hr' (s & Es & Em); [|lia].
      injection Hr' as <-. vm_compute in Es. injection Es as <-.
      vm_compute in Em. discriminate Em.
  - apply (proj2 (check_inventory_reports "P9" shop _ El)).
    intros r Hr (s & Es & Em).
    repeat (apply elem_of_cons in Hr as [->|Hr];
            [vm_compute in Es; injection Es as <-; vm_compute in Em; discriminate Em|]).
    by apply elem_of_nil in Hr.
Defined.

(** C5, as the code has it.  Once the file has loaded the filter succeeds.
    Every record it returns is a record of the catalog and passes every
    predicate the filter applies: the type, compared without regard to case
    with the trimmed product type, when a product type is given and not
    empty; each of the three bounds when it is given.  The records are
    sorted by rating descending, ties broken by price ascending, records
    without a rating last.  The count is the length of the list, and the
    length is at most [top_n] when [top_n] is not negative.  When no record
    passes, the result is a success with count 0. *)
Theorem filter_recommendations `{FloatRepr}
    product_type min_rating min_price max_price top_n st df :
  _load_products_df st = Ok df →
  ∃ recs,
    filter_products_internal product_type min_rating min_price max_price top_n st =
      Ok (FilterOk (length recs) recs) ∧
    (∀ r, r ∈ recs →
       r ∈ rows df ∧ passes product_type min_rating min_price max_price r) ∧
    StronglySorted ranks_before recs ∧
    ((0 ≤ top_n)%Z → (Z.of_nat (length recs) ≤ top_n)%Z) ∧
    ((∀ r, r ∈ rows df →
        ¬ passes product_type min_rating min_price max_price r) → recs = []).
Proof.
  intros El. eexists. split; [by apply filter_products_run|].
  split; [|split; [|split]].
  - intros r Hr%head_elem. by rewrite sort_values_elem, narrowed_elem in Hr.
  - apply head_Sorted, sort_values_Sorted.
  - apply head_length.
  - intros Hnone.
    destruct (rows (head top_n (sort_values
                (narrowed product_type min_rating min_price max_price df))))
      as [|r l] eqn:E; [done|].
    assert (r ∈ rows (head top_n (sort_values
                (narrowed product_type min_rating min_price max_price df)))) as Hr
      by (rewrite E; apply list_elem_of_here).
    apply head_elem in Hr. rewrite sort_values_elem, narrowed_elem in Hr.
    destruct Hr as [Hr Hp].
    by destruct (Hnone r Hr).
Qed.

Lemma filter_recommendations_witness :
  ∃ recs,
    filter_products_internal (Some " kitchen ") (Some 4%Q) None (Some 50%Q) 5 shop =
      Ok (FilterOk (length recs) recs) ∧
    (∀ r, r ∈ recs →
       r ∈ rows (frame [laptop; kettle; returned_mug]) ∧
       passes (Some " kitchen ") (Some 4%Q) None (Some 50%Q) r) ∧
    StronglySorted ranks_before recs ∧
    ((0 ≤ 5)%Z → (Z.of_nat (length recs) ≤ 5)%Z) ∧
    ((∀ r, r ∈ rows (frame [laptop; kettle; returned_mug]) →
        ¬ passes (Some " kitchen ") (Some 4%Q) None (Some 50%Q) r) → recs = []).
Proof.
  apply (filter_recommendations (Some " kitchen ") (Some 4%Q) None (Some 50%Q) 5 shop
           (frame [laptop; kettle; returned_mug])).
  vm_compute. reflexivity.
Defined.

(** The claim C5 as stated fails in two places.  An empty product type is
    given, yet the records returned do not have the empty type.  A negative
    [top_n] returns all records but the last, more than [top_n]. *)
Lemma filter_ignores_empty_type_and_negative_top_n :
  (filter_products_internal (Some "") None None None 5 shop =
     Ok (FilterOk 3 [kettle; laptop; returned_mug]) ∧
   ¬ type_is "" kettle) ∧
  (filter_products_internal None None None None (-1) shop =
     Ok (FilterOk 2 [kettle; laptop]) ∧
   ¬ (Z.of_nat (length [kettle; laptop]) ≤ -1)%Z).
Proof.
  split; split.
  - vm_compute. reflexivity.
  - intros (s & Es & Em). vm_compute in Es. injection Es as <-.
    vm_compute in Em. discriminate Em.
  - vm_compute. reflexivity.
  - simpl. lia.
Qed.

(** C10.  An empty product type is treated as an absent one: the filter
    returns the same result for both.  A bound of 0 is applied like any
    other bound: with a minimum rating of 0 every record returned has a
    rating of at least 0, likewise for a minimum and a maximum price of 0;
    and on the catalog [ledger] each of the three gives another result than
    the absent bound. *)
Theorem empty_type_skipped_zero_bound_applied `{FloatRepr} :
  (∀ min_rating min_price max_price top_n st,
     filter_products_internal (Some "") min_rating min_price max_price top_n st =
     filter_products_internal None min_rating min_price max_price top_n st) ∧
  (∀ product_type min_price max_price top_n st count recs r,
     filter_products_internal product_type (Some 0%Q) min_price max_price top_n st =
       Ok (FilterOk count recs) →
     r ∈ recs → rating_at_least 0 r) ∧
  (∀ product_type min_rating max_price top_n st count recs r,
     filter_products_internal product_type min_rating (Some 0%Q) max_price top_n st =
       Ok (FilterOk count recs) →
     r ∈ recs → price_at_least 0 r) ∧
  (∀ product_type min_rating min_price top_n st count recs r,
     filter_products_internal product_type min_rating min_price (Some 0%Q) top_n st =
       Ok (FilterOk count recs) →
     r ∈ recs → price_at_most 0 r) ∧
  filter_products_internal None (Some 0%Q) None None 5 ledger ≠
    filter_products_internal None None None None 5 ledger ∧
  filter_products_internal None None (Some 0%Q) None 5 ledger ≠
    filter_products_internal None None None None 5 ledger ∧
  filter_products_internal None None None (Some 0%Q) 5 ledger ≠
    filter_products_internal None None None None 5 ledger.
Proof.
  assert (∀ product_type min_rating min_price max_price top_n st count recs r,
            filter_products_internal product_type min_rating min_price max_price
              top_n st = Ok (FilterOk count recs) →
            r ∈ recs → passes product_type min_rating min_price max_price r) as Hpass.
  { intros product_type min_rating min_price max_price top_n st count recs r E Hr.
    destruct (_load_products_df st) as [df|e] eqn:El.
    - rewrite (filter_products_run _ _ _ _ _ _ df El) in E.
      assert (recs = rows (head top_n (sort_values
                (narrowed product_type min_rating min_price max_price df)))) as ->
        by congruence.
      apply head_elem in Hr. rewrite sort_values_elem, narrowed_elem in Hr. tauto.
    - unfold filter_products_internal in E. rewrite El in E. discriminate E. }
  split; [done|].
  split; [|split; [|split]].
  - intros ???????? E Hr. destruct (Hpass _ _ _ _ _ _ _ _ _ E Hr) as (_ & Hg & _). auto.
  - intros ???????? E Hr. destruct (Hpass _ _ _ _ _ _ _ _ _ E Hr) as (_ & _ & Hp & _). auto.
  - intros ???????? E Hr. destruct (Hpass _ _ _ _ _ _ _ _ _ E Hr) as (_ & _ & _ & Hx). auto.
  - split; [|split]; vm_compute; intros E; discriminate E.
Qed.

Lemma empty_type_skipped_zero_bound_applied_witness :
  filter_products_internal (Some "") None None None 5 shop =
    filter_products_internal None None None None 5 shop ∧
  (∀ r, r ∈ [kettle; laptop] → rating_at_least 0 r).
Proof.
  split.
  - apply (proj1 empty_type_skipped_zero_bound_applied).
  - intros r Hr.
    apply (proj1 (proj2 empty_type_skipped_zero_bound_applied)
             None None None 5%Z shop 2%nat [kettle; laptop] r); [|exact Hr].
    vm_compute. reflexivity.
Defined.

(** C7, as the code has it.  The keyword is trimmed and lower-cased.  When
    it is empty or all whitespace, the search returns an error result.
    Otherwise, when the trimmed keyword has no character that is special in
    a regular expression, the search succeeds and returns, in catalog order,
    exactly the records whose name or description contains the trimmed
    keyword without regard to case; when no record does, that is a success
    with an empty list. *)
Theorem search_by_keyword `{FloatRepr} keyword st df :
  _load_products_df st = Ok df →
  (PyStr.all_chars PyStr.is_space keyword = true →
     search_product_by_name_internal keyword st =
       Ok (SearchError "Empty search query.")) ∧
  (PyStr.all_chars PyStr.is_space keyword = false →
   plain (PyStr.lower (PyStr.strip keyword)) = true →
     ∃ matches,
       search_product_by_name_internal keyword st =
         Ok (SearchOk (length matches) matches) ∧
       sublist matches (rows df) ∧
       (∀ r, r ∈ matches ↔
             r ∈ rows df ∧ mentions (PyStr.lower (PyStr.strip keyword)) r) ∧
       ((∀ r, r ∈ rows df → ¬ mentions (PyStr.lower (PyStr.strip keyword)) r) →
        matches = [])).
Proof.
  intros El. split.
  - intros Hsp. unfold search_product_by_name_internal. rewrite El, bind_Ok_l.
    apply strip_empty in Hsp. by rewrite Hsp.
  - intros Hsp Hplain. unfold search_product_by_name_internal. rewrite El, bind_Ok_l.
    destruct (PyStr.truthy (PyStr.lower (PyStr.strip keyword))) eqn:Ht.
    2:{ apply truthy_false, lower_empty, strip_empty in Ht. congruence. }
    simpl. rewrite (re_compile_plain _ Hplain).
    eexists. split; [reflexivity|]. simpl.
    assert (∀ r,
      series_str_contains (literal (PyStr.lower (PyStr.strip keyword)))
        (series_str_lower (at_col "product_name" r))
      || series_str_contains (literal (PyStr.lower (PyStr.strip keyword)))
           (series_str_lower (at_col "product_description" r)) = true
      ↔ mentions (PyStr.lower (PyStr.strip keyword)) r) as Hmask.
    { intros r. unfold mentions. by rewrite orb_true_iff, !contains_literal. }
    split; [apply List_filter_sublist|]. split.
    + intros r. by rewrite elem_of_List_filter, Hmask.
    + intros Hnone. apply filter_nil. intros r Hr.
      apply not_true_is_false. intros Hm. apply Hmask in Hm. by destruct (Hnone r Hr).
Qed.

Lemma search_by_keyword_witness :
  search_product_by_name_internal "   " shop = Ok (SearchError "Empty search query.") ∧
  ∃ matches,
    search_product_by_name_internal " TEA " shop =
      Ok (SearchOk (length matches) matches) ∧
    sublist matches (rows (frame [laptop; kettle; returned_mug])) ∧
    (∀ r, r ∈ matches ↔
          r ∈ rows (frame [laptop; kettle; returned_mug]) ∧
          mentions (PyStr.lower (PyStr.strip " TEA ")) r) ∧
    ((∀ r, r ∈ rows (frame [laptop; kettle; returned_mug]) →
        ¬ mentions (PyStr.lower (PyStr.strip " TEA ")) r) → matches = []).
Proof.
  assert (_load_products_df shop = Ok (frame [laptop; kettle; returned_mug])) as El
    by (vm_compute; reflexivity).
  split.
  - apply (proj1 (search_by_keyword "   " shop _ El)). reflexivity.
  - apply (proj2 (search_by_keyword " TEA " shop _ El)); reflexivity.
Defined.

(** The claim C7 as stated fails in two places.  The keyword [" lap "]
    finds the laptop, whose name and description do not contain it: the
    search looks for the trimmed keyword.  The keyword ["."] finds the
    laptop, whose name and description contain no dot: the search reads the
    keyword as a regular expression. *)
Lemma search_trims_and_reads_patterns :
  (search_product_by_name_internal " lap " shop = Ok (SearchOk 1 [laptop]) ∧
   ¬ mentions (PyStr.lower " lap ") laptop) ∧
  (search_product_by_name_internal "." shop =
     Ok (SearchOk 3 [laptop; kettle; returned_mug]) ∧
   ¬ mentions (PyStr.lower ".") laptop).
Proof.
  split; split; try (vm_compute; reflexivity).
  - intros [(s & Es & Hs)|(s & Es & Hs)];
      vm_compute in Es; injection Es as <-;
      apply re_search_literal in Hs; vm_compute in Hs; discriminate Hs.
  - intros [(s & Es & Hs)|(s & Es & Hs)];
      vm_compute in Es; injection Es as <-;
      apply re_search_literal in Hs; vm_compute in Hs; discriminate Hs.
Qed.

(** * Further lemmas *)

Lemma is_space_upper c : PyStr.is_space (PyStr.upper_char c) = PyStr.is_space c.
Proof. destruct c as [[] [] [] [] [] [] [] []]; reflexivity. Qed.

Lemma is_space_lower c : PyStr.is_space (PyStr.lower_char c) = PyStr.is_space c.
Proof. destruct c as [[] [] [] [] [] [] [] []]; reflexivity. Qed.

Lemma lstrip_map_chars f s :
  (∀ c, PyStr.is_space (f c) = PyStr.is_space c) →
  PyStr.lstrip (PyStr.map_chars f s) = PyStr.map_chars f (PyStr.lstrip s).
Proof.
  intros Hf. induction s as [|c s IH]; cbn [PyStr.map_chars PyStr.lstrip]; [done|].
  rewrite Hf. by destruct (PyStr.is_space c).
Qed.

Lemma rstrip_map_chars f s :
  (∀ c, PyStr.is_space (f c) = PyStr.is_space c) →
  PyStr.rstrip (PyStr.map_chars f s) = PyStr.map_chars f (PyStr.rstrip s).
Proof.
  intros Hf. induction s as [|c s IH]; cbn [PyStr.map_chars PyStr.rstrip]; [done|].
  rewrite IH, Hf. destruct (PyStr.rstrip s); cbn [PyStr.map_chars]; [|done].
  by destruct (PyStr.is_space c).
Qed.

Lemma strip_upper s : PyStr.strip (PyStr.upper s) = PyStr.upper (PyStr.strip s).
Proof.
  unfold PyStr.strip, PyStr.upper.
  by rewrite lstrip_map_chars, rstrip_map_chars by apply is_space_upper.
Qed.

Lemma strip_lower s : PyStr.strip (PyStr.lower s) = PyStr.lower (PyStr.strip s).
Proof.
  unfold PyStr.strip, PyStr.lower.
  by rewrite lstrip_map_chars, rstrip_map_chars by apply is_space_lower.
Qed.

Lemma rstrip_idem s : PyStr.rstrip (PyStr.rstrip s) = PyStr.rstrip s.
Proof.
  induction s as [|c s IH]; cbn [PyStr.rstrip]; [done|].
  destruct (PyStr.rstrip s) as [|d t] eqn:E.
  - destruct (PyStr.is_space c) eqn:Ec; cbn [PyStr.rstrip]; [done|]. by rewrite Ec.
  - cbn [PyStr.rstrip] in *. by rewrite IH.
Qed.

Lemma lstrip_head s :
  PyStr.lstrip s = "" ∨ ∃ c t, PyStr.lstrip s = String c t ∧ PyStr.is_space c = false.
Proof.
  induction s as [|c s IH]; cbn [PyStr.lstrip]; [by left|].
  destruct (PyStr.is_space c) eqn:E; [done|]. right. eauto.
Qed.

Lemma rstrip_head c t :
  PyStr.is_space c = false → ∃ t', PyStr.rstrip (String c t) = String c t'.
Proof.
  intros Hc. cbn [PyStr.rstrip]. destruct (PyStr.rstrip t); [|eauto].
  rewrite Hc. eauto.
Qed.

Lemma strip_idem s : PyStr.strip (PyStr.strip s) = PyStr.strip s.
Proof.
  unfold PyStr.strip. destruct (lstrip_head s) as [->|(c & t & -> & Hc)]; [done|].
  destruct (rstrip_head c t Hc) as [t' E]. rewrite E.
  cbn [PyStr.lstrip]. rewrite Hc, <- E. apply rstrip_idem.
Qed.

Lemma map_chars_length f s : String.length (PyStr.map_chars f s) = String.length s.
Proof. induction s; simpl; congruence. Qed.

Lemma lstrip_length s : (String.length (PyStr.lstrip s) ≤ String.length s)%nat.
Proof.
  induction s as [|c s IH]; cbn [PyStr.lstrip]; [done|].
  destruct (PyStr.is_space c); simpl in *; lia.
Qed.

Lemma lstrip_same_length s :
  String.length (PyStr.lstrip s) = String.length s → PyStr.lstrip s = s.
Proof.
  destruct s as [|c s]; cbn [PyStr.lstrip]; [done|].
  destruct (PyStr.is_space c); [|done].
  pose proof (lstrip_length s). simpl. lia.
Qed.

Lemma rstrip_length s : (String.length (PyStr.rstrip s) ≤ String.length s)%nat.
Proof.
  induction s as [|c s IH]; cbn [PyStr.rstrip]; [done|].
  destruct (PyStr.rstrip s); [destruct (PyStr.is_space c)|]; simpl in *; lia.
Qed.

Lemma rstrip_same_length s :
  String.length (PyStr.rstrip s) = String.length s → PyStr.rstrip s = s.
Proof.
  induction s as [|c s IH]; cbn [PyStr.rstrip]; [done|].
  pose proof (rstrip_length s) as Hle.
  destruct (PyStr.rstrip s) as [|d t] eqn:E.
  - destruct (PyStr.is_space c); simpl; [lia|].
    intros Hl. destruct s; [done|simpl in Hl; lia].
  - simpl. intros Hl. f_equal. apply IH. simpl. lia.
Qed.

Lemma strip_same_length s :
  String.length (PyStr.strip s) = String.length s → PyStr.strip s = s.
Proof.
  unfold PyStr.strip. intros Hl.
  pose proof (lstrip_length s). pose proof (rstrip_length (PyStr.lstrip s)).
  assert (PyStr.lstrip s = s) as El by (apply lstrip_same_length; lia).
  rewrite El in *. by apply rstrip_same_length.
Qed.

(** A string that equals a stripped string up to case is stripped. *)
Lemma eq_ignore_case_stripped s t :
  eq_ignore_case s (PyStr.strip t) → PyStr.strip s = s.
Proof.
  unfold eq_ignore_case. intros E.
  apply strip_same_length.
  assert (PyStr.lower (PyStr.strip s) = PyStr.lower s) as E'.
  { rewrite <- strip_lower, E, strip_lower. by rewrite strip_idem. }
  apply (f_equal String.length) in E'. unfold PyStr.lower in E'.
  by rewrite !map_chars_length in E'.
Qed.

(** ** The lookup takes the request up to case and blanks *)

Lemma id_mask_normal product_id product_id' r :
  eq_ignore_case (PyStr.strip product_id) (PyStr.strip product_id') →
  id_mask product_id r = id_mask product_id' r.
Proof.
  intros E. unfold id_mask. apply upper_eq_iff in E. by rewrite E.
Qed.

Lemma id_matches_normal product_id product_id' r :
  eq_ignore_case (PyStr.strip product_id) (PyStr.strip product_id') →
  id_matches product_id r → id_matches product_id' r.
Proof.
  intros E Hm. apply id_mask_matches. rewrite <- (id_mask_normal _ _ _ E).
  by apply id_mask_matches.
Qed.

Lemma resolves_normal product_id product_id' df i r :
  eq_ignore_case (PyStr.strip product_id) (PyStr.strip product_id') →
  resolves product_id df i r → resolves product_id' df i r.
Proof.
  intros E (Hi & Hm & Hbefore). repeat split; [done|by eapply id_matches_normal|].
  intros j r' Hj Hl Hm'. apply (Hbefore j r' Hj Hl).
  eapply id_matches_normal; [|exact Hm']. unfold eq_ignore_case in *. congruence.
Qed.

Lemma index_where_ext (mask mask' : row → bool) l :
  (∀ r, mask r = mask' r) → index_where mask l = index_where mask' l.
Proof.
  intros E. induction l as [|a l IH]; simpl; [done|]. by rewrite E, IH.
Qed.

Lemma List_filter_ext (mask mask' : row → bool) l :
  (∀ r, mask r = mask' r) → List.filter mask l = List.filter mask' l.
Proof.
  intros E. induction l as [|a l IH]; simpl; [done|]. by rewrite E, IH.
Qed.

(** ** Rows that differ in stock only *)

Lemma same_but_stock_at_col c r r' :
  same_but_stock r r' → c ≠ "inventory_count" → at_col c r' = at_col c r.
Proof. intros Hs Hc. unfold at_col. by rewrite (Hs c Hc). Qed.

Lemma same_but_stock_refl r : same_but_stock r r.
Proof. by intros c _. Qed.

Lemma same_but_stock_restock r z :
  same_but_stock r (<["inventory_count" := VInt z]> r).
Proof. intros c Hc. by rewrite lookup_insert_ne. Qed.

Lemma same_but_stock_id_mask product_id r r' :
  same_but_stock r r' → id_mask product_id r' = id_mask product_id r.
Proof.
  intros Hs. unfold id_mask. by rewrite (same_but_stock_at_col "product_id" r r' Hs).
Qed.

Lemma same_but_stock_all l : Forall2 same_but_stock l l.
Proof. induction l; constructor; [apply same_but_stock_refl|done]. Qed.

Lemma sold_rows i q df : Forall2 same_but_stock (rows df) (rows (sold i q df)).
Proof.
  unfold sold, df_set_at. simpl.
  generalize (VInt (py_int (df_at i "inventory_count" df) - q)). intros v.
  generalize (rows df). clear df. intros l. revert i.
  induction l as [|a l IH]; intros i; [constructor|].
  destruct i as [|i]; simpl; constructor.
  - intros c Hc. by rewrite lookup_insert_ne.
  - apply same_but_stock_all.
  - apply same_but_stock_refl.
  - apply IH.
Qed.

Lemma resolves_same_but_stock product_id df df' i r :
  Forall2 same_but_stock (rows df) (rows df') →
  resolves product_id df i r →
  ∃ r', resolves product_id df' i r' ∧ same_but_stock r r'.
Proof.
  intros HF (Hi & Hm & Hbefore).
  destruct (Forall2_lookup_l _ _ _ _ _ HF Hi) as (r' & Hi' & Hs).
  exists r'. split; [|done]. repeat split; [done| |].
  - apply id_mask_matches. rewrite (same_but_stock_id_mask _ _ _ Hs).
    by apply id_mask_matches.
  - intros j x' Hj Hl' Hm'.
    destruct (Forall2_lookup_r _ _ _ _ _ HF Hl') as (x & Hl & Hsx).
    apply (Hbefore j x Hj Hl). apply id_mask_matches.
    rewrite <- (same_but_stock_id_mask _ _ _ Hsx). by apply id_mask_matches.
Qed.

Lemma resolves_sold product_id df i r k q :
  resolves product_id df i r →
  ∃ r', resolves product_id (sold k q df) i r' ∧ same_but_stock r r'.
Proof. apply resolves_same_but_stock, sold_rows. Qed.

Lemma resolves_inj product_id df i r j r' :
  resolves product_id df i r → resolves product_id df j r' → i = j ∧ r = r'.
Proof.
  intros (Hi & Hm & Hb) (Hj & Hm' & Hb').
  destruct (Nat.lt_trichotomy i j) as [Hlt|[->|Hlt]].
  - destruct (Hb' i r Hlt Hi Hm).
  - split; [done|]. congruence.
  - destruct (Hb j r' Hlt Hj Hm').
Qed.

(** What the inventory check returns for a resolved id. *)
Lemma check_inventory_resolved `{FloatRepr} product_id st df i r :
  _load_products_df st = Ok df → resolves product_id df i r →
  check_inventory_internal product_id st =
    Ok (InventoryOk
          {| inv_product_id := at_col "product_id" r;
             inv_product_name := at_col "product_name" r;
             inv_price := price r;
             inv_rating := rating r;
             inv_inventory_count := inventory_count r;
             inv_in_stock := (0 <? inventory_count r)%Z |}).
Proof.
  intros El (Hi & Hm & Hbefore)%resolves_mask.
  unfold check_inventory_internal. rewrite El, bind_Ok_l. simpl.
  by destruct (filter_first _ _ _ _ Hi Hm Hbefore) as [rest ->].
Qed.

Lemma check_inventory_unknown `{FloatRepr} product_id st df :
  _load_products_df st = Ok df →
  (∀ r, r ∈ rows df → ¬ id_matches product_id r) →
  check_inventory_internal product_id st = Ok (InventoryNotFound product_id).
Proof.
  intros El Hnone. unfold check_inventory_internal. rewrite El, bind_Ok_l. simpl.
  by rewrite (filter_nil _ _ (unknown_mask _ _ Hnone)).
Qed.

Lemma load_sold `{FloatRepr} st df i q :
  _load_products_df st = Ok df →
  _load_products_df (Some (sold i q df)) = Ok (sold i q df).
Proof. intros El. apply load_settled, sold_loaded. by apply load_loaded in El. Qed.

Lemma sold_inventory i q df r :
  rows df !! i = Some r →
  ∃ r', rows (sold i q df) !! i = Some r' ∧
        inventory_count r' = (inventory_count r - q)%Z ∧ same_but_stock r r'.
Proof.
  intros Hi. eexists. split; [by apply sold_lookup|]. split.
  - unfold inventory_count at 1. by rewrite at_col_insert.
  - apply same_but_stock_restock.
Qed.

(** Every run of the checkout on a loaded file: the file stays, or one
    resolved record is sold. *)
Lemma checkout_store `{FloatRepr} product_id quantity urandom st df res st' :
  _load_products_df st = Ok df →
  checkout_internal product_id quantity urandom st = (res, st') →
  (st' = st ∧ checkout_failed res) ∨
  (∃ o i r, res = Ok (CheckoutOk o) ∧ resolves product_id df i r ∧
     (0 < quantity)%Z ∧ (quantity ≤ inventory_count r)%Z ∧
     st' = Some (sold i quantity df)).
Proof.
  intros El E.
  destruct (Z_le_gt_dec quantity 0) as [Hq|Hq].
  { rewrite checkout_invalid in E by done. injection E as <- <-. by left. }
  apply Z.gt_lt in Hq.
  destruct (resolves_or_unknown product_id df) as [Hnone|(i & r & Hres)].
  { rewrite (checkout_unknown _ _ _ _ df) in E by done. injection E as <- <-. by left. }
  destruct (Z_lt_le_dec (inventory_count r) quantity) as [Hlt|Hle].
  { rewrite (checkout_insufficient _ _ _ _ df i r) in E by done.
    injection E as <- <-. by left. }
  rewrite (checkout_purchase _ _ _ _ df i r) in E by done.
  injection E as <- <-. right. eauto 10.
Qed.

Lemma checkout_normal `{FloatRepr} product_id product_id' quantity urandom st :
  eq_ignore_case (PyStr.strip product_id) (PyStr.strip product_id') →
  checkout_internal product_id' quantity urandom st =
    match checkout_internal product_id quantity urandom st with
    | (Ok (NotFound _), s) => (Ok (NotFound product_id'), s)
    | other => other
    end.
Proof.
  intros E. unfold checkout_internal.
  destruct (quantity <=? 0)%Z; [done|].
  destruct (_load_products_df st) as [df|e]; [|done].
  rewrite (index_where_ext (id_mask product_id') (id_mask product_id))
    by (intros r; symmetry; by apply id_mask_normal).
  destruct (index_where (id_mask product_id) (rows df)) as [|i rest]; [done|].
  by destruct (py_int (df_at i "inventory_count" df) <? quantity)%Z.
Qed.

Lemma check_inventory_normal `{FloatRepr} product_id product_id' st :
  eq_ignore_case (PyStr.strip product_id) (PyStr.strip product_id') →
  check_inventory_internal product_id' st =
    match check_inventory_internal product_id st with
    | Ok (InventoryNotFound _) => Ok (InventoryNotFound product_id')
    | other => other
    end.
Proof.
  intros E. unfold check_inventory_internal.
  destruct (_load_products_df st) as [df|e]; [|done]. rewrite !bind_Ok_l. simpl.
  rewrite (List_filter_ext (id_mask product_id') (id_mask product_id))
    by (intros r; symmetry; by apply id_mask_normal).
  by destruct (List.filter (id_mask product_id) (rows df)).
Qed.

Lemma stock_alter (l : list row) i r z :
  l !! i = Some r →
  foldr (λ r n, (inventory_count r + n)%Z) 0%Z
    (alter (insert "inventory_count" (VInt z)) i l) =
  (foldr (λ r n, (inventory_count r + n)%Z) 0%Z l - inventory_count r + z)%Z.
Proof.
  revert i. induction l as [|a l IH]; intros [|i] Hi; try done.
  - injection Hi as ->. cbn [alter list_alter foldr].
    unfold inventory_count at 1. rewrite at_col_insert. cbn [py_int]. lia.
  - cbn [alter list_alter foldr]. cbn [lookup list_lookup] in Hi.
    change (list_alter (insert "inventory_count" (VInt z)) i l)
      with (alter (insert "inventory_count" (VInt z)) i l).
    rewrite (IH i Hi). lia.
Qed.

Lemma total_stock_sold i q df r :
  rows df !! i = Some r → total_stock (sold i q df) = (total_stock df - q)%Z.
Proof.
  intros Hi. unfold total_stock, sold, df_set_at. simpl.
  rewrite (df_at_lookup _ _ _ _ Hi). fold (inventory_count r).
  rewrite (stock_alter _ _ r) by done. lia.
Qed.

Lemma unknown_same_but_stock product_id df df' :
  Forall2 same_but_stock (rows df) (rows df') →
  (∀ r, r ∈ rows df → ¬ id_matches product_id r) →
  ∀ r', r' ∈ rows df' → ¬ id_matches product_id r'.
Proof.
  intros HF Hnone r' [j Hj]%list_elem_of_lookup Hm.
  destruct (Forall2_lookup_r _ _ _ _ _ HF Hj) as (r & Hl & Hs).
  apply (Hnone r); [by eapply list_elem_of_lookup_2|].
  apply id_mask_matches. rewrite <- (same_but_stock_id_mask _ _ _ Hs).
  by apply id_mask_matches.
Qed.

Lemma restock_restock (r : row) z z' :
  <["inventory_count" := VInt z']> (<["inventory_count" := VInt z]> r) =
  <["inventory_count" := VInt z']> r.
Proof. apply insert_insert_eq. Qed.

Lemma inventory_count_restock (r : row) z :
  inventory_count (<["inventory_count" := VInt z]> r) = z.
Proof. unfold inventory_count. by rewrite at_col_insert. Qed.

(** Two sales, one after the other, in either order. *)
Lemma sold_sold i j q q' df r r' :
  rows df !! i = Some r → rows df !! j = Some r' →
  sold j q' (sold i q df) = sold i q (sold j q' df).
Proof.
  intros Hi Hj. unfold sold at 1 3. unfold df_set_at. f_equal.
  apply list_eq. intros k.
  change (rows (sold j q' (sold i q df)) !! k = rows (sold i q (sold j q' df)) !! k).
  destruct (decide (i = j)) as [<-|Hij].
  - assert (r' = r) as -> by congruence.
    destruct (decide (i = k)) as [<-|Hik].
    + rewrite (sold_lookup i q' (sold i q df) _ (sold_lookup i q df r Hi)).
      rewrite (sold_lookup i q (sold i q' df) _ (sold_lookup i q' df r Hi)).
      rewrite !inventory_count_restock, !restock_restock.
      do 3 f_equal. lia.
    + by rewrite !sold_lookup_ne.
  - destruct (decide (i = k)) as [<-|Hik]; [|destruct (decide (j = k)) as [<-|Hjk]].
    + rewrite sold_lookup_ne by done. rewrite (sold_lookup i q df r Hi).
      rewrite (sold_lookup i q (sold j q' df) r); [done|].
      by rewrite sold_lookup_ne.
    + rewrite (sold_lookup j q' (sold i q df) r'); [|by rewrite sold_lookup_ne].
      rewrite sold_lookup_ne by done. by rewrite (sold_lookup j q' df r' Hj).
    + by rewrite !sold_lookup_ne.
Qed.

(** ** Rounding and the order id *)






Lemma N_of_ascii_of_N n : (n < 256)%N → N_of_ascii (ascii_of_N n) = n.
Proof. apply N_ascii_embedding. Qed.

Lemma hex_digit_code n :
  (n < 16)%N →
  N_of_ascii (hex_digit n) = if (n <? 10)%N then (48 + n)%N else (87 + n)%N.
Proof.
  intros Hn. unfold hex_digit. destruct (n <? 10)%N; apply N_of_ascii_of_N; lia.
Qed.

Lemma hex_digit_inj n m : (n < 16)%N → (m < 16)%N → hex_digit n = hex_digit m → n = m.
Proof.
  intros Hn Hm E. apply (f_equal N_of_ascii) in E.
  rewrite !hex_digit_code in E by done.
  destruct (n <? 10)%N eqn:E1, (m <? 10)%N eqn:E2;
    rewrite ?N.ltb_lt, ?N.ltb_ge in *; lia.
Qed.

Lemma hex_digit_is_hex n : (n < 16)%N → is_hex_digit (hex_digit n) = true.
Proof.
  intros Hn. unfold is_hex_digit. rewrite hex_digit_code by done.
  destruct (n <? 10)%N eqn:E; rewrite ?N.ltb_lt, ?N.ltb_ge in E.
  - apply orb_true_iff. left. apply andb_true_iff. split; apply N.leb_le; lia.
  - apply orb_true_iff. right. apply andb_true_iff. split; apply N.leb_le; lia.
Qed.

Lemma hex_byte_inj b b' : (b < 256)%N → (b' < 256)%N → hex_byte b = hex_byte b' → b = b'.
Proof.
  intros Hb Hb' E. unfold hex_byte in E. injection E as E1 E2.
  apply hex_digit_inj in E1; [|apply N.mod_lt; lia..].
  apply hex_digit_inj in E2; [|apply N.mod_lt; lia..].
  rewrite (N.div_mod b 16), (N.div_mod b' 16) by lia.
  rewrite !N.mod_small in E1 by (apply N.Div0.div_lt_upper_bound; lia).
  by rewrite E1, E2.
Qed.

Lemma bytes_hex_cons b bs :
  bytes_hex (b :: bs) =
  String (hex_digit (b / 16 mod 16)) (String (hex_digit (b mod 16)) (bytes_hex bs)).
Proof. reflexivity. Qed.

Lemma bytes_hex_inj bs bs' :
  is_bytes bs → is_bytes bs' → bytes_hex bs = bytes_hex bs' → bs = bs'.
Proof.
  intros Hbs. revert bs'. induction Hbs as [|b bs Hb _ IH]; intros bs' Hbs' E.
  - destruct Hbs' as [|b' bs' _ _]; [done|]. discriminate E.
  - destruct Hbs' as [|b' bs' Hb' Hbs']; [discriminate E|].
    rewrite !bytes_hex_cons in E. injection E as E1 E2 E3.
    f_equal.
    + apply hex_byte_inj; [done..|]. unfold hex_byte. by rewrite E1, E2.
    + by apply IH.
Qed.

Lemma bytes_hex_length bs : String.length (bytes_hex bs) = (2 * length bs)%nat.
Proof.
  induction bs as [|b bs IH]; [done|].
  rewrite bytes_hex_cons. cbn [String.length length]. rewrite IH. lia.
Qed.

Lemma bytes_hex_digits bs : PyStr.all_chars is_hex_digit (bytes_hex bs) = true.
Proof.
  induction bs as [|b bs IH]; [done|].
  rewrite bytes_hex_cons. cbn [PyStr.all_chars].
  rewrite !hex_digit_is_hex by (apply N.mod_lt; lia). by rewrite IH.
Qed.

Lemma checkout_order_id `{FloatRepr} product_id quantity urandom st o st' :
  checkout_internal product_id quantity urandom st = (Ok (CheckoutOk o), st') →
  order_id o = "ORD-" +:+ bytes_hex urandom.
Proof.
  unfold checkout_internal. destruct (quantity <=? 0)%Z; [done|].
  destruct (_load_products_df st) as [df|e]; [|done].
  destruct (index_where _ _) as [|i rest]; [done|].
  destruct (_ <? _)%Z; [done|]. by intros [= <- _].
Qed.

(** ** What the loader does to one row *)

Lemma load_row_cells `{FloatRepr} r r' :
  load_row r = Ok r' →
  to_numeric (at_col "price" r) = Ok (at_col "price" r') ∧
  to_numeric (at_col "rating" r) = Ok (at_col "rating" r') ∧
  inventory_cast (at_col "inventory_count" r) = Ok (at_col "inventory_count" r') ∧
  astype_str (at_col "product_id" r) = Ok (at_col "product_id" r') ∧
  astype_str (at_col "product_name" r) = Ok (at_col "product_name" r') ∧
  astype_str (at_col "product_description" r) = Ok (at_col "product_description" r') ∧
  astype_str (at_col "type" r) = Ok (at_col "type" r') ∧
  ∀ c, c ∉ required_cols → r' !! c = r !! c.
Proof.
  unfold load_row. intros E.
  apply bind_Ok in E as (p & Ep & E). apply bind_Ok in E as (g & Eg & E).
  apply bind_Ok in E as (n & En & E). apply bind_Ok in E as (i & Ei & E).
  apply bind_Ok in E as (m & Em & E). apply bind_Ok in E as (d & Ed & E).
  apply bind_Ok in E as (t & Et & E). injection E as <-.
  repeat split;
    try (repeat (rewrite at_col_insert_ne by column_neq); by rewrite at_col_insert).
  intros c Hc.
  repeat (rewrite lookup_insert_ne;
          [|intros <-; apply Hc; unfold required_cols;
            repeat (first [apply list_elem_of_here | apply list_elem_of_further])]).
  done.
Qed.

Lemma load_lookup `{FloatRepr} raw df j r :
  _load_products_df (Some raw) = Ok df → rows raw !! j = Some r →
  ∃ r', rows df !! j = Some r' ∧ load_row r = Ok r'.
Proof.
  intros (raw' & [= <-] & _ & _ & F)%load_Ok Hj.
  destruct (Forall2_lookup_l _ _ _ _ _ F Hj) as (r' & Hj' & Er). eauto.
Qed.

Lemma Qtrunc_towards_zero q :
  ((0 <= q)%Q → (inject_Z (Qtrunc q) <= q)%Q ∧ (q < inject_Z (Qtrunc q) + 1)%Q) ∧
  ((q <= 0)%Q → (q <= inject_Z (Qtrunc q))%Q ∧ (inject_Z (Qtrunc q) < q + 1)%Q).
Proof.
  destruct q as [n d]. unfold Qtrunc. cbn [Qnum Qden].
  pose proof (Z.quot_rem' n (Z.pos d)) as Hqr.
  rewrite (Z.mul_comm (Z.pos d)) in Hqr.
  assert ((0 ≤ n → 0 ≤ Z.rem n (Z.pos d) < Z.pos d)%Z) as Hpos
    by (intros; by apply Z.rem_bound_pos).
  assert ((n ≤ 0 → - Z.pos d < Z.rem n (Z.pos d) ≤ 0)%Z) as Hneg
    by (intros; by apply Z.rem_bound_pos_neg).
  generalize dependent (Z.rem n (Z.pos d)). intros m.
  generalize (n ÷ Z.pos d)%Z. intros z Hqr Hpos Hneg.
  unfold Qle, Qlt, Qplus, inject_Z. cbn [Qnum Qden].
  rewrite ?Z.mul_1_r, ?Pos.mul_1_r, ?Pos.mul_1_l, ?Z.mul_0_l, ?Z.mul_1_l.
  replace ((z + 1) * Z.pos d)%Z with (z * Z.pos d + Z.pos d)%Z by ring.
  generalize dependent (z * Z.pos d)%Z. intros k Hqr. lia.
Qed.

(** ** More on sorting and truncating *)

Lemma insert_sorted_Permutation x l : insert_sorted x l ≡ₚ x :: l.
Proof.
  induction l as [|a l IH]; simpl; [done|].
  destruct (row_le x a); [done|]. rewrite IH. apply Permutation_swap.
Qed.

Lemma sort_values_Permutation df : rows (sort_values df) ≡ₚ rows df.
Proof.
  unfold sort_values. simpl. induction (rows df) as [|a l IH]; simpl; [done|].
  by rewrite insert_sorted_Permutation, IH.
Qed.

(** [df.head(n)] splits the rows in two: what it returns and what it cuts. *)
Lemma head_split n df :
  ∃ rest : list row, rows df = (rows (head n df) ++ rest)%list ∧
    length (rows (head n df)) =
      if (0 <=? n)%Z then min (Z.to_nat n) (length (rows df))
      else (length (rows df) - Z.to_nat (- n))%nat.
Proof.
  unfold head. simpl. destruct (0 <=? n)%Z.
  - exists (drop (Z.to_nat n) (rows df)). split; [by rewrite take_drop|].
    apply length_take.
  - exists (drop (length (rows df) - Z.to_nat (- n)) (rows df)).
    split; [by rewrite take_drop|]. rewrite length_take. lia.
Qed.

Lemma narrowed_sublist product_type min_rating min_price max_price df :
  sublist (rows (narrowed product_type min_rating min_price max_price df)) (rows df).
Proof.
  unfold narrowed.
  assert (∀ A (x : option A) mask d, sublist (rows (narrow_if x mask d)) (rows d))
    as Hstep.
  { intros A [a|] mask d; simpl; [apply List_filter_sublist|done]. }
  repeat (etrans; [apply Hstep|]). done.
Qed.

(** ** Results that do not look at the stock *)

Lemma List_filter_Forall2 (R : row → row → Prop) (mask : row → bool) l l' :
  (∀ a b, R a b → mask a = mask b) →
  Forall2 R l l' → Forall2 R (List.filter mask l) (List.filter mask l').
Proof.
  intros Hm. induction 1 as [|a b l l' Hab _ IH]; simpl; [constructor|].
  rewrite <- (Hm a b Hab). destruct (mask a); [by constructor|done].
Qed.

Lemma row_le_same_but_stock a a' b b' :
  same_but_stock a a' → same_but_stock b b' → row_le a' b' = row_le a b.
Proof.
  intros Ha Hb. unfold row_le.
  by rewrite !(same_but_stock_at_col _ a a' Ha), !(same_but_stock_at_col _ b b' Hb)
    by column_neq.
Qed.

Lemma insert_sorted_Forall2 x x' l l' :
  same_but_stock x x' → Forall2 same_but_stock l l' →
  Forall2 same_but_stock (insert_sorted x l) (insert_sorted x' l').
Proof.
  intros Hx. induction 1 as [|a b l l' Hab Hl IH]; simpl; [by repeat constructor|].
  rewrite (row_le_same_but_stock x x' a b Hx Hab).
  destruct (row_le x a); by repeat constructor.
Qed.

Lemma sort_values_Forall2 df df' :
  Forall2 same_but_stock (rows df) (rows df') →
  Forall2 same_but_stock (rows (sort_values df)) (rows (sort_values df')).
Proof.
  unfold sort_values. simpl.
  induction 1 as [|a b l l' Hab _ IH]; simpl; [constructor|].
  by apply insert_sorted_Forall2.
Qed.

Lemma head_Forall2 n df df' :
  Forall2 same_but_stock (rows df) (rows df') →
  Forall2 same_but_stock (rows (head n df)) (rows (head n df')).
Proof.
  intros HF. unfold head. simpl. rewrite <- (Forall2_length _ _ _ HF).
  destruct (0 <=? n)%Z; by apply Forall2_take.
Qed.

Lemma narrow_if_Forall2 {A} (x : option A) (mask : A → row → bool) df df' :
  (∀ v a b, same_but_stock a b → mask v a = mask v b) →
  Forall2 same_but_stock (rows df) (rows df') →
  Forall2 same_but_stock (rows (narrow_if x mask df)) (rows (narrow_if x mask df')).
Proof.
  intros Hm HF. destruct x as [v|]; simpl; [|done].
  apply List_filter_Forall2; [apply Hm|done].
Qed.

Lemma narrowed_Forall2 product_type min_rating min_price max_price df df' :
  Forall2 same_but_stock (rows df) (rows df') →
  Forall2 same_but_stock
    (rows (narrowed product_type min_rating min_price max_price df))
    (rows (narrowed product_type min_rating min_price max_price df')).
Proof.
  intros HF. unfold narrowed.
  repeat (apply narrow_if_Forall2;
          [intros v a b Hab; by rewrite (same_but_stock_at_col _ a b Hab) by column_neq|]).
  done.
Qed.

Lemma search_Forall2 `{FloatRepr} keyword st st' df df' :
  _load_products_df st = Ok df → _load_products_df st' = Ok df' →
  Forall2 same_but_stock (rows df) (rows df') →
  search_same_but_stock (search_product_by_name_internal keyword st)
                        (search_product_by_name_internal keyword st').
Proof.
  intros El El' HF. unfold search_product_by_name_internal.
  rewrite El, El', !bind_Ok_l.
  destruct (negb _); [done|].
  destruct (re_compile _) as [p|]; [|done].
  cbn [search_same_but_stock boolean_index rows].
  assert (Forall2 same_but_stock
    (List.filter (λ r, series_str_contains p (series_str_lower (at_col "product_name" r))
       || series_str_contains p (series_str_lower (at_col "product_description" r)))
       (rows df))
    (List.filter (λ r, series_str_contains p (series_str_lower (at_col "product_name" r))
       || series_str_contains p (series_str_lower (at_col "product_description" r)))
       (rows df'))) as HF'.
  { apply List_filter_Forall2; [|done].
    intros a b Hab. by rewrite !(same_but_stock_at_col _ a b Hab) by column_neq. }
  split; [|done]. by apply Forall2_length in HF'.
Qed.

Lemma filter_Forall2 `{FloatRepr}
    product_type min_rating min_price max_price top_n st st' df df' :
  _load_products_df st = Ok df → _load_products_df st' = Ok df' →
  Forall2 same_but_stock (rows df) (rows df') →
  filter_same_but_stock
    (filter_products_internal product_type min_rating min_price max_price top_n st)
    (filter_products_internal product_type min_rating min_price max_price top_n st').
Proof.
  intros El El' HF.
  rewrite (filter_products_run _ _ _ _ _ _ df El),
    (filter_products_run _ _ _ _ _ _ df' El').
  assert (Forall2 same_but_stock
    (rows (head top_n (sort_values
       (narrowed product_type min_rating min_price max_price df))))
    (rows (head top_n (sort_values
       (narrowed product_type min_rating min_price max_price df'))))) as HF'
    by (by apply head_Forall2, sort_values_Forall2, narrowed_Forall2).
  split; [|done]. by apply Forall2_length in HF'.
Qed.

Lemma truthy_upper s : PyStr.truthy (PyStr.upper s) = PyStr.truthy s.
Proof. by destruct s. Qed.

(** ** The replies of the tools *)

Lemma checkout_failed_store `{FloatRepr} product_id quantity urandom st res st' :
  checkout_internal product_id quantity urandom st = (res, st') →
  checkout_failed res → st' = st.
Proof.
  intros E Hfail.
  destruct (_load_products_df st) as [df|e] eqn:El.
  - destruct (checkout_store _ _ _ _ _ _ _ El E)
      as [[-> _]|(o & i & r & -> & _)]; [done|destruct Hfail].
  - destruct (Z_le_gt_dec quantity 0) as [Hq|Hq].
    + rewrite checkout_invalid in E by done. by injection E as _ <-.
    + rewrite (checkout_load_raises _ _ _ _ e) in E by (done || lia).
      by injection E as _ <-.
Qed.

Lemma checkout_Ok_loaded `{FloatRepr} product_id quantity urandom st o st' :
  checkout_internal product_id quantity urandom st = (Ok (CheckoutOk o), st') →
  ∃ df, _load_products_df st = Ok df.
Proof.
  intros E. destruct (_load_products_df st) as [df|e] eqn:El; [eauto|].
  destruct (Z_le_gt_dec quantity 0) as [Hq|Hq].
  - rewrite checkout_invalid in E by done. discriminate E.
  - rewrite (checkout_load_raises _ _ _ _ e) in E by (done || lia). discriminate E.
Qed.

(** The replies to a failed checkout do not begin with the mark of
    success. *)
Lemma failed_reply_has_no_mark `{FloatRepr} `{Runtime} res reply :
  checkout_failed res →
  tool_reply "Error during checkout: " _dict_to_text_checkout res = Ok reply →
  String.prefix "✅ Checkout successful" reply = false.
Proof.
  intros Hfail E. destruct res as [[m|p|a|o]|e]; try destruct Hfail;
    try (injection E as <-; reflexivity).
  destruct e; try (injection E as <-; reflexivity). discriminate E.
Qed.



(** ** The answer of the agent and the memory of the page *)

Lemma answer_payload_parts `{Json} parts final msgs :
  (answer_payload (parts, final) msgs).1 = (parts ++ parts_of [msgs])%list.
Proof.
  unfold answer_payload, parts_of. cbn [mbind list_bind]. rewrite app_nil_r.
  destruct (last msgs) as [[c|c [|t ts]|c]|]; cbn; by rewrite ?app_nil_r.
Qed.

Lemma answer_payload_final `{Json} parts final msgs c :
  final_reply msgs = Some c →
  answer_payload (parts, final) msgs =
    ((parts ++ [c])%list, PyStr.strip (join "" (parts ++ [c])%list)).
Proof.
  unfold final_reply, answer_payload.
  destruct (last msgs) as [[c'|c' [|t ts]|c']|]; try done. by intros [= ->].
Qed.

Lemma answer_payload_not_final `{Json} parts final msgs :
  final_reply msgs = None → (answer_payload (parts, final) msgs).2 = final.
Proof.
  unfold final_reply, answer_payload.
  by destruct (last msgs) as [[c'|c' [|t ts]|c']|].
Qed.

Lemma parts_of_app `{Json} ps qs : parts_of (ps ++ qs) = (parts_of ps ++ parts_of qs)%list.
Proof. unfold parts_of. apply bind_app. Qed.

Lemma answer_fold_parts `{Json} ps parts final :
  (foldl answer_payload (parts, final) ps).1 = (parts ++ parts_of ps)%list.
Proof.
  revert parts final. induction ps as [|p ps IH]; intros parts final.
  - cbn. by rewrite app_nil_r.
  - cbn [foldl]. destruct (answer_payload (parts, final) p) as [parts' final'] eqn:E.
    rewrite IH. pose proof (answer_payload_parts parts final p) as Hp.
    rewrite E in Hp. cbn [fst] in Hp. rewrite Hp.
    change (p :: ps) with ([p] ++ ps)%list. by rewrite parts_of_app, app_assoc.
Qed.

Lemma answer_fold_not_final `{Json} qs parts final :
  (∀ q, q ∈ qs → final_reply q = None) →
  (foldl answer_payload (parts, final) qs).2 = final.
Proof.
  revert parts final. induction qs as [|q qs IH]; intros parts final Hq; [done|].
  cbn [foldl]. destruct (answer_payload (parts, final) q) as [parts' final'] eqn:E.
  rewrite IH by (intros q' Hq'; apply Hq; by apply list_elem_of_further).
  pose proof (answer_payload_not_final parts final q
                (Hq q ltac:(apply list_elem_of_here))) as Hf.
  by rewrite E in Hf.
Qed.

Lemma last_n_short {A} n (l : list A) : (length l ≤ n)%nat → last_n n l = l.
Proof. intros Hl. unfold last_n. by replace (length l - n)%nat with 0%nat by lia. Qed.

Lemma last_n_length {A} n (l : list A) : length (last_n n l) = min n (length l).
Proof. unfold last_n. rewrite length_drop. lia. Qed.

(** Trimming, adding an entry and trimming again is adding the entry and
    trimming once. *)
Lemma last_n_snoc {A} n (l : list A) x :
  (0 < n)%nat → last_n n (last_n n l ++ [x]) = last_n n (l ++ [x]).
Proof.
  intros Hn. destruct (decide (length l ≤ n)%nat) as [Hl|Hl].
  { by rewrite (last_n_short n l). }
  unfold last_n at 1 3. rewrite !length_app, last_n_length. cbn [length].
  rewrite (drop_app_le l) by lia. unfold last_n.
  rewrite drop_app_le by (rewrite length_drop; lia).
  rewrite drop_drop. do 2 f_equal. lia.
Qed.

(** * Further properties *)

(** X1.  The inventory check and the checkout take the product id up to
    the case of its letters and the blanks around it: two requests that
    agree after trimming and case folding get the same result, and the same
    file afterwards, except that a not-found result carries the id as it
    was requested. *)
Theorem lookup_up_to_case_and_blanks `{FloatRepr} product_id product_id' st :
  eq_ignore_case (PyStr.strip product_id) (PyStr.strip product_id') →
  check_inventory_internal product_id' st =
    match check_inventory_internal product_id st with
    | Ok (InventoryNotFound _) => Ok (InventoryNotFound product_id')
    | other => other
    end ∧
  ∀ quantity urandom,
    checkout_internal product_id' quantity urandom st =
      match checkout_internal product_id quantity urandom st with
      | (Ok (NotFound _), s) => (Ok (NotFound product_id'), s)
      | other => other
      end.
Proof.
  intros E. split; [by apply check_inventory_normal|].
  intros quantity urandom. by apply checkout_normal.
Qed.

Lemma lookup_up_to_case_and_blanks_witness :
  check_inventory_internal "  P2 " shop =
    match check_inventory_internal "p2" shop with
    | Ok (InventoryNotFound _) => Ok (InventoryNotFound "  P2 ")
    | other => other
    end ∧
  ∀ quantity urandom,
    checkout_internal "  P2 " quantity urandom shop =
      match checkout_internal "p2" quantity urandom shop with
      | (Ok (NotFound _), s) => (Ok (NotFound "  P2 "), s)
      | other => other
      end.
Proof. apply (lookup_up_to_case_and_blanks "p2" "  P2 " shop). reflexivity. Defined.

(** X2.  A record whose stored id has blanks around it is out of reach: no
    requested id matches it, and whatever checkout is run, the record is in
    the catalog afterwards as it was. *)
Theorem padded_id_out_of_reach `{FloatRepr} st df i r s :
  _load_products_df st = Ok df →
  rows df !! i = Some r →
  at_col "product_id" r = VStr s →
  PyStr.strip s ≠ s →
  (∀ product_id, ¬ id_matches product_id r) ∧
  (∀ product_id quantity urandom res st',
     checkout_internal product_id quantity urandom st = (res, st') →
     ∃ df', _load_products_df st' = Ok df' ∧ rows df' !! i = Some r).
Proof.
  intros El Hi Hs Hpad.
  assert (∀ product_id, ¬ id_matches product_id r) as Hnone.
  { intros product_id (s' & Es & Em). rewrite Hs in Es. injection Es as <-.
    by apply eq_ignore_case_stripped in Em. }
  split; [done|].
  intros product_id quantity urandom res st' E.
  destruct (checkout_store _ _ _ _ _ _ _ El E)
    as [[-> _]|(o & k & rk & _ & Hres & _ & _ & ->)].
  - by exists df.
  - exists (sold k quantity df). split; [by eapply load_sold|].
    rewrite sold_lookup_ne; [done|]. intros <-.
    destruct Hres as (Hk & Hm & _). rewrite Hi in Hk. injection Hk as <-.
    by destruct (Hnone product_id).
Qed.

Lemma padded_id_out_of_reach_witness :
  (∀ product_id, ¬ id_matches product_id (product "P7 " "Lamp" "Desk lamp" "Home" 30 4 2)) ∧
  (∀ product_id quantity urandom res st',
     checkout_internal product_id quantity urandom
       (catalog [laptop; product "P7 " "Lamp" "Desk lamp" "Home" 30 4 2]) = (res, st') →
     ∃ df', _load_products_df st' = Ok df' ∧
            rows df' !! 1%nat = Some (product "P7 " "Lamp" "Desk lamp" "Home" 30 4 2)).
Proof.
  apply (padded_id_out_of_reach
           (catalog [laptop; product "P7 " "Lamp" "Desk lamp" "Home" 30 4 2])
           (frame [laptop; product "P7 " "Lamp" "Desk lamp" "Home" 30 4 2])
           1 _ "P7 ").
  - vm_compute. reflexivity.
  - reflexivity.
  - reflexivity.
  - vm_compute. discriminate.
Defined.

(** X3.  After a successful checkout the inventory check of the same id
    reports the inventory count lowered by the quantity, in stock exactly
    when units are left, and the id, name, price and rating as before. *)
Theorem check_inventory_after_checkout `{FloatRepr}
    product_id quantity urandom st df i r :
  _load_products_df st = Ok df →
  resolves product_id df i r →
  (0 < quantity)%Z →
  (quantity ≤ inventory_count r)%Z →
  ∃ o st',
    checkout_internal product_id quantity urandom st = (Ok (CheckoutOk o), st') ∧
    check_inventory_internal product_id st' =
      Ok (InventoryOk
            {| inv_product_id := at_col "product_id" r;
               inv_product_name := at_col "product_name" r;
               inv_price := price r;
               inv_rating := rating r;
               inv_inventory_count := inventory_count r - quantity;
               inv_in_stock := (quantity <? inventory_count r)%Z |}).
Proof.
  intros El Hres Hq Hle. eexists _, _. split; [by apply checkout_purchase|].
  destruct (resolves_sold product_id df i r i quantity Hres) as (r' & Hres' & Hs).
  rewrite (check_inventory_resolved _ _ (sold i quantity df) i r');
    [|by eapply load_sold|done].
  destruct (sold_inventory i quantity df r (proj1 Hres)) as (r'' & Hi'' & Hinv & _).
  assert (r'' = r') as -> by (destruct Hres' as [Hi' _]; congruence).
  unfold price, rating.
  rewrite !(same_but_stock_at_col _ r r' Hs) by column_neq.
  rewrite Hinv. do 3 f_equal.
  destruct (quantity <? inventory_count r)%Z eqn:E1, (0 <? inventory_count r - quantity)%Z eqn:E2;
    try done; lia.
Qed.

Lemma check_inventory_after_checkout_witness :
  ∃ o st',
    checkout_internal "p1" 3 [1; 2; 3; 4]%N shop = (Ok (CheckoutOk o), st') ∧
    check_inventory_internal "p1" st' =
      Ok (InventoryOk
            {| inv_product_id := at_col "product_id" laptop;
               inv_product_name := at_col "product_name" laptop;
               inv_price := price laptop;
               inv_rating := rating laptop;
               inv_inventory_count := inventory_count laptop - 3;
               inv_in_stock := (3 <? inventory_count laptop)%Z |}).
Proof.
  apply (check_inventory_after_checkout "p1" 3 [1; 2; 3; 4]%N shop
           (frame [laptop; kettle; returned_mug]) 0 laptop).
  - vm_compute. reflexivity.
  - split; [reflexivity|]. split.
    + exists "P1". split; reflexivity.
    + intros j r' Hj. lia.
  - reflexivity.
  - vm_compute. discriminate.
Defined.

(** X4.  A checkout, successful or not, leaves the inventory check of
    every product id that addresses another record as it was. *)
Theorem checkout_leaves_other_records `{FloatRepr}
    product_id quantity urandom st df res st' other_id :
  _load_products_df st = Ok df →
  checkout_internal product_id quantity urandom st = (res, st') →
  (∀ i r, resolves product_id df i r → ¬ resolves other_id df i r) →
  check_inventory_internal other_id st' = check_inventory_internal other_id st.
Proof.
  intros El E Hother.
  destruct (checkout_store _ _ _ _ _ _ _ El E)
    as [[-> _]|(o & i & r & _ & Hres & _ & _ & ->)]; [done|].
  destruct (resolves_or_unknown other_id df) as [Hnone|(j & r2 & Hres2)].
  - rewrite (check_inventory_unknown other_id st df) by done.
    apply (check_inventory_unknown _ _ (sold i quantity df)); [by eapply load_sold|].
    eapply unknown_same_but_stock; [apply sold_rows|done].
  - assert (i ≠ j) as Hij.
    { intros <-. apply (Hother i r Hres).
      assert (r2 = r) as <-; [|done].
      destruct Hres as [Hi _], Hres2 as [Hj _]. congruence. }
    destruct (resolves_sold other_id df j r2 i quantity Hres2) as (r2' & Hres2' & _).
    assert (r2' = r2) as ->.
    { destruct Hres2' as [Hj' _], Hres2 as [Hj _].
      rewrite sold_lookup_ne in Hj' by done. congruence. }
    rewrite (check_inventory_resolved other_id st df j r2) by done.
    apply (check_inventory_resolved _ _ (sold i quantity df) j r2); [|done].
    by eapply load_sold.
Qed.

Lemma checkout_leaves_other_records_witness :
  check_inventory_internal "P2"
    (checkout_internal "p1" 3 [1; 2; 3; 4]%N shop).2 =
  check_inventory_internal "P2" shop.
Proof.
  apply (checkout_leaves_other_records "p1" 3 [1; 2; 3; 4]%N shop
           (frame [laptop; kettle; returned_mug])
           (checkout_internal "p1" 3 [1; 2; 3; 4]%N shop).1).
  - vm_compute. reflexivity.
  - by destruct (checkout_internal "p1" 3 [1; 2; 3; 4]%N shop).
  - intros i r (Hi & _ & Hfirst) (_ & (s & Es & Em) & _).
    destruct i as [|i].
    + injection Hi as <-. vm_compute in Es. injection Es as <-.
      vm_compute in Em. discriminate Em.
    + apply (Hfirst 0%nat laptop); [lia|reflexivity|].
      exists "P1". split; reflexivity.
Defined.

(** X5.  After a successful checkout of [q1] units a second checkout of
    the same id for [q2] units succeeds exactly when both quantities
    together are in stock, and then the persisted inventory count is lowered
    by both; otherwise it is refused as insufficient, reports what the first
    checkout left, and leaves the file as the first checkout wrote it. *)
Theorem second_checkout `{FloatRepr} product_id q1 q2 urandom1 urandom2 st df i r :
  _load_products_df st = Ok df →
  resolves product_id df i r →
  (0 < q1)%Z → (q1 ≤ inventory_count r)%Z → (0 < q2)%Z →
  ∃ o1 st1,
    checkout_internal product_id q1 urandom1 st = (Ok (CheckoutOk o1), st1) ∧
    ((q1 + q2 ≤ inventory_count r)%Z →
       ∃ o2 st2 df2 r2,
         checkout_internal product_id q2 urandom2 st1 = (Ok (CheckoutOk o2), st2) ∧
         _load_products_df st2 = Ok df2 ∧ rows df2 !! i = Some r2 ∧
         inventory_count r2 = (inventory_count r - q1 - q2)%Z) ∧
    ((inventory_count r < q1 + q2)%Z →
       checkout_internal product_id q2 urandom2 st1 =
         (Ok (InsufficientInventory (inventory_count r - q1)), st1)).
Proof.
  intros El Hres Hq1 Hle Hq2. eexists _, _. split; [by apply checkout_purchase|].
  destruct (resolves_sold product_id df i r i q1 Hres) as (r1 & Hres1 & _).
  destruct (sold_inventory i q1 df r (proj1 Hres)) as (r1' & Hi1 & Hinv1 & _).
  assert (r1' = r1) as -> by (destruct Hres1 as [Hi' _]; congruence).
  pose proof (load_sold st df i q1 El) as El1.
  split.
  - intros Hboth.
    destruct (sold_inventory i q2 (sold i q1 df) r1 Hi1) as (r2 & Hi2 & Hinv2 & _).
    eexists _, _, (sold i q2 (sold i q1 df)), r2.
    split; [apply (checkout_purchase _ _ _ _ (sold i q1 df) i r1); try done; lia|].
    split; [by eapply load_sold|]. split; [done|]. lia.
  - intros Hshort. rewrite <- Hinv1.
    apply (checkout_insufficient _ _ _ _ (sold i q1 df) i r1); try done. lia.
Qed.

Lemma second_checkout_witness :
  ∃ o1 st1,
    checkout_internal "P1" 3 [1]%N shop = (Ok (CheckoutOk o1), st1) ∧
    ((3 + 8 ≤ inventory_count laptop)%Z →
       ∃ o2 st2 df2 r2,
         checkout_internal "P1" 8 [2]%N st1 = (Ok (CheckoutOk o2), st2) ∧
         _load_products_df st2 = Ok df2 ∧ rows df2 !! 0%nat = Some r2 ∧
         inventory_count r2 = (inventory_count laptop - 3 - 8)%Z) ∧
    ((inventory_count laptop < 3 + 8)%Z →
       checkout_internal "P1" 8 [2]%N st1 =
         (Ok (InsufficientInventory (inventory_count laptop - 3)), st1)).
Proof.
  apply (second_checkout "P1" 3 8 [1]%N [2]%N shop
           (frame [laptop; kettle; returned_mug]) 0 laptop).
  - vm_compute. reflexivity.
  - split; [reflexivity|]. split.
    + exists "P1". split; reflexivity.
    + intros j r' Hj. lia.
  - reflexivity.
  - vm_compute. discriminate.
  - reflexivity.
Defined.

(** X6.  Two checkouts that both succeed one after the other leave the same
    file in either order, whether they buy the same record or two records. *)
Theorem checkouts_commute `{FloatRepr}
    id_a q_a urandom_a id_b q_b urandom_b st df i r_a j r_b :
  _load_products_df st = Ok df →
  resolves id_a df i r_a → resolves id_b df j r_b →
  (0 < q_a)%Z → (0 < q_b)%Z →
  (q_a ≤ inventory_count r_a)%Z → (q_b ≤ inventory_count r_b)%Z →
  (i = j → (q_a + q_b ≤ inventory_count r_a)%Z) →
  ∃ o_a o_b o_b' o_a' st_a st_b final,
    checkout_internal id_a q_a urandom_a st = (Ok (CheckoutOk o_a), st_a) ∧
    checkout_internal id_b q_b urandom_b st_a = (Ok (CheckoutOk o_b), final) ∧
    checkout_internal id_b q_b urandom_b st = (Ok (CheckoutOk o_b'), st_b) ∧
    checkout_internal id_a q_a urandom_a st_b = (Ok (CheckoutOk o_a'), final).
Proof.
  intros El Ha Hb Hqa Hqb Hla Hlb Hsame.
  destruct (resolves_sold id_b df j r_b i q_a Hb) as (r_b' & Hb' & _).
  destruct (resolves_sold id_a df i r_a j q_b Ha) as (r_a' & Ha' & _).
  assert ((q_b ≤ inventory_count r_b')%Z) as Hlb'.
  { destruct Hb' as [Hj' _]. destruct (decide (i = j)) as [<-|Hij].
    - assert (r_b = r_a) as -> by (destruct Ha, Hb; congruence).
      rewrite (sold_lookup i q_a df r_a) in Hj' by apply Ha. injection Hj' as <-.
      rewrite inventory_count_restock. specialize (Hsame eq_refl). lia.
    - rewrite sold_lookup_ne in Hj' by done.
      assert (r_b' = r_b) as -> by (destruct Hb; congruence). done. }
  assert ((q_a ≤ inventory_count r_a')%Z) as Hla'.
  { destruct Ha' as [Hi' _]. destruct (decide (j = i)) as [->|Hij].
    - assert (r_b = r_a) as -> by (destruct Ha, Hb; congruence).
      rewrite (sold_lookup i q_b df r_a) in Hi' by apply Ha. injection Hi' as <-.
      rewrite inventory_count_restock. specialize (Hsame eq_refl). lia.
    - rewrite sold_lookup_ne in Hi' by done.
      assert (r_a' = r_a) as -> by (destruct Ha; congruence). done. }
  eexists _, _, _, _, _, _, _.
  split; [by apply (checkout_purchase _ _ _ _ df i r_a)|].
  split; [apply (checkout_purchase _ _ _ _ (sold i q_a df) j r_b'); try done;
          by eapply load_sold|].
  split; [by apply (checkout_purchase _ _ _ _ df j r_b)|].
  rewrite (sold_sold i j q_a q_b df r_a r_b) by (apply Ha || apply Hb).
  apply (checkout_purchase _ _ _ _ (sold j q_b df) i r_a'); try done.
  by eapply load_sold.
Qed.

Lemma checkouts_commute_witness :
  ∃ o_a o_b o_b' o_a' st_a st_b final,
    checkout_internal "p1" 4 [10]%N shop = (Ok (CheckoutOk o_a), st_a) ∧
    checkout_internal "p2" 1 [11]%N st_a = (Ok (CheckoutOk o_b), final) ∧
    checkout_internal "p2" 1 [11]%N shop = (Ok (CheckoutOk o_b'), st_b) ∧
    checkout_internal "p1" 4 [10]%N st_b = (Ok (CheckoutOk o_a'), final).
Proof.
  apply (checkouts_commute "p1" 4 [10]%N "p2" 1 [11]%N shop
           (frame [laptop; kettle; returned_mug]) 0 laptop 1 kettle).
  - vm_compute. reflexivity.
  - split; [reflexivity|]. split.
    + exists "P1". split; reflexivity.
    + intros j r' Hj. lia.
  - split; [reflexivity|]. split.
    + exists "P2". split; reflexivity.
    + intros [|k] r' Hk Hr' (s & Es & Em); [|lia].
      injection Hr' as <-. vm_compute in Es. injection Es as <-.
      vm_compute in Em. discriminate Em.
  - reflexivity.
  - reflexivity.
  - vm_compute. discriminate.
  - vm_compute. discriminate.
  - intros E. discriminate E.
Defined.

(** X7.  A successful checkout takes exactly the quantity out of the stock
    of the whole catalog and keeps the number of records. *)
Theorem checkout_takes_quantity_from_stock `{FloatRepr}
    product_id quantity urandom st df o st' :
  _load_products_df st = Ok df →
  checkout_internal product_id quantity urandom st = (Ok (CheckoutOk o), st') →
  ∃ df', _load_products_df st' = Ok df' ∧
    total_stock df' = (total_stock df - quantity)%Z ∧
    length (rows df') = length (rows df).
Proof.
  intros El E.
  apply (checkout_Ok_inv _ _ _ _ df) in E as (i & r & Hres & Hq & Hle & ->); [|done].
  exists (sold i quantity df). split; [by eapply load_sold|].
  split; [apply (total_stock_sold _ _ _ r), Hres|apply length_alter].
Qed.

Lemma checkout_takes_quantity_from_stock_witness :
  ∃ df', _load_products_df (checkout_internal "p2" 2 [7]%N shop).2 = Ok df' ∧
    total_stock df' = (total_stock (frame [laptop; kettle; returned_mug]) - 2)%Z ∧
    length (rows df') = length (rows (frame [laptop; kettle; returned_mug])).
Proof.
  eapply (checkout_takes_quantity_from_stock "p2" 2 [7]%N shop
            (frame [laptop; kettle; returned_mug])).
  - vm_compute. reflexivity.
  - vm_compute. reflexivity.
Defined.

(** X8.  The order id of a successful checkout is ["ORD-"] followed by the
    bytes of [os.urandom] in lower-case hexadecimal, two digits a byte; two
    orders have the same id only when the bytes drawn were the same. *)
Theorem order_id_shows_the_bytes `{FloatRepr}
    product_id quantity urandom st o st'
    product_id2 quantity2 urandom2 st2 o2 st2' :
  is_bytes urandom → is_bytes urandom2 →
  checkout_internal product_id quantity urandom st = (Ok (CheckoutOk o), st') →
  checkout_internal product_id2 quantity2 urandom2 st2 = (Ok (CheckoutOk o2), st2') →
  order_id o = "ORD-" +:+ bytes_hex urandom ∧
  String.length (order_id o) = (4 + 2 * length urandom)%nat ∧
  PyStr.all_chars is_hex_digit (bytes_hex urandom) = true ∧
  (order_id o = order_id o2 → urandom = urandom2).
Proof.
  intros Hb Hb2 E E2.
  apply checkout_order_id in E, E2. rewrite E, E2.
  split; [done|]. split; [|split].
  - change (S (S (S (S (String.length (bytes_hex urandom))))) =
            (4 + 2 * length urandom)%nat).
    rewrite bytes_hex_length. lia.
  - apply bytes_hex_digits.
  - intros [= Eh]. by apply bytes_hex_inj.
Qed.

Lemma order_id_shows_the_bytes_witness :
  order_id
    {| order_id := "ORD-deadbeef"; order_product_id := VStr "P1";
       order_product_name := VStr "Laptop"; qty := 1; unit_price := F 100;
       total_price := py_round2 (float_mul_int (F 100) 1) |} =
    "ORD-" +:+ bytes_hex [222; 173; 190; 239]%N ∧
  String.length
    (order_id
       {| order_id := "ORD-deadbeef"; order_product_id := VStr "P1";
          order_product_name := VStr "Laptop"; qty := 1; unit_price := F 100;
          total_price := py_round2 (float_mul_int (F 100) 1) |}) =
    (4 + 2 * length [222; 173; 190; 239]%N)%nat ∧
  PyStr.all_chars is_hex_digit (bytes_hex [222; 173; 190; 239]%N) = true ∧
  (order_id
     {| order_id := "ORD-deadbeef"; order_product_id := VStr "P1";
        order_product_name := VStr "Laptop"; qty := 1; unit_price := F 100;
        total_price := py_round2 (float_mul_int (F 100) 1) |} =
   order_id
     {| order_id := "ORD-00010203"; order_product_id := VStr "P2";
        order_product_name := VStr "Kettle"; qty := 2; unit_price := F 25;
        total_price := py_round2 (float_mul_int (F 25) 2) |} →
   [222; 173; 190; 239]%N = [0; 1; 2; 3]%N).
Proof.
  eapply (order_id_shows_the_bytes "p1" 1 [222; 173; 190; 239]%N shop _ _
            "p2" 2 [0; 1; 2; 3]%N shop _ _).
  - repeat constructor.
  - repeat constructor.
  - vm_compute. reflexivity.
  - vm_compute. reflexivity.
Defined.





(** X11.  The loader changes a row of the file only where it converts:
    columns beyond the seven required ones, prices and ratings, inventory
    counts that are integers and text cells that are text come out as they
    went in. *)
Theorem loader_changes_only_what_it_converts `{FloatRepr} raw df j r :
  _load_products_df (Some raw) = Ok df →
  rows raw !! j = Some r →
  ∃ r', rows df !! j = Some r' ∧
    (∀ c, c ∉ required_cols → r' !! c = r !! c) ∧
    at_col "price" r' = at_col "price" r ∧
    at_col "rating" r' = at_col "rating" r ∧
    (∀ z, at_col "inventory_count" r = VInt z →
          at_col "inventory_count" r' = VInt z) ∧
    (∀ c s, c ∈ ["product_id"; "product_name"; "product_description"; "type"] →
            at_col c r = VStr s → at_col c r' = VStr s).
Proof.
  intros El Hj. destruct (load_lookup _ _ _ _ El Hj) as (r' & Hj' & Er).
  exists r'. split; [done|].
  apply load_row_cells in Er as (Ep & Eg & En & Ei & Em & Ed & Et & Hother).
  split; [done|]. split; [|split; [|split]].
  - destruct (at_col "price" r); simpl in Ep; congruence.
  - destruct (at_col "rating" r); simpl in Eg; congruence.
  - intros z Ez. rewrite Ez in En.
    change (inventory_cast (VInt z)) with (@Ok cell (VInt z)) in En. congruence.
  - intros c s Hc Es.
    repeat (apply elem_of_cons in Hc as [->|Hc];
            [rewrite Es in *; simpl in *; congruence|]).
    by apply elem_of_nil in Hc.
Qed.

Lemma loader_changes_only_what_it_converts_witness :
  ∃ r', rows imported !! 0%nat = Some r' ∧
    (∀ c, c ∉ required_cols → r' !! c = exported_row !! c) ∧
    at_col "price" r' = at_col "price" exported_row ∧
    at_col "rating" r' = at_col "rating" exported_row ∧
    (∀ z, at_col "inventory_count" exported_row = VInt z →
          at_col "inventory_count" r' = VInt z) ∧
    (∀ c s, c ∈ ["product_id"; "product_name"; "product_description"; "type"] →
            at_col c exported_row = VStr s → at_col c r' = VStr s).
Proof.
  apply (loader_changes_only_what_it_converts exported imported 0 exported_row).
  - vm_compute. reflexivity.
  - reflexivity.
Defined.

(** X12.  An inventory count that the file gives with a fraction is loaded
    as the integer next to it on the side of zero. *)
Theorem loader_truncates_fractional_stock `{FloatRepr} raw df j r q :
  _load_products_df (Some raw) = Ok df →
  rows raw !! j = Some r →
  at_col "inventory_count" r = VFloat q →
  ∃ r', rows df !! j = Some r' ∧
    at_col "inventory_count" r' = VInt (inventory_count r') ∧
    ((0 <= q)%Q → (inject_Z (inventory_count r') <= q)%Q ∧
                  (q < inject_Z (inventory_count r') + 1)%Q) ∧
    ((q <= 0)%Q → (q <= inject_Z (inventory_count r'))%Q ∧
                  (inject_Z (inventory_count r') < q + 1)%Q).
Proof.
  intros El Hj Eq. destruct (load_lookup _ _ _ _ El Hj) as (r' & Hj' & Er).
  exists r'. split; [done|].
  apply load_row_cells in Er as (_ & _ & En & _).
  rewrite Eq in En.
  change (inventory_cast (VFloat q)) with (@Ok cell (VInt (Qtrunc q))) in En.
  injection En as En.
  unfold inventory_count. rewrite <- En. cbn [py_int].
  split; [done|]. apply Qtrunc_towards_zero.
Qed.

Lemma loader_truncates_fractional_stock_witness :
  ∃ r', rows imported !! 0%nat = Some r' ∧
    at_col "inventory_count" r' = VInt (inventory_count r') ∧
    ((0 <= 3.7)%Q → (inject_Z (inventory_count r') <= 3.7)%Q ∧
                    (3.7 < inject_Z (inventory_count r') + 1)%Q) ∧
    ((3.7 <= 0)%Q → (3.7 <= inject_Z (inventory_count r'))%Q ∧
                    (inject_Z (inventory_count r') < 3.7 + 1)%Q).
Proof.
  apply (loader_truncates_fractional_stock exported imported 0 exported_row 3.7).
  - vm_compute. reflexivity.
  - reflexivity.
  - reflexivity.
Defined.



(** X14.  The filter returns the best of the records that pass: the
    records that pass are, up to order, the records returned followed by the
    records cut, every record returned ranks before every record cut, and
    the number returned is [top_n] or all of them when fewer pass; for a
    negative [top_n] the last [-top_n] in rank are cut. *)
Theorem recommendations_are_the_best `{FloatRepr}
    product_type min_rating min_price max_price top_n st df :
  _load_products_df st = Ok df →
  ∃ recs rest : list row,
    filter_products_internal product_type min_rating min_price max_price top_n st =
      Ok (FilterOk (length recs) recs) ∧
    (recs ++ rest)%list ≡ₚ rows (narrowed product_type min_rating min_price max_price df) ∧
    (∀ r, r ∈ (recs ++ rest)%list ↔
          r ∈ rows df ∧ passes product_type min_rating min_price max_price r) ∧
    (length (recs ++ rest)%list ≤ length (rows df))%nat ∧
    (∀ a b, a ∈ recs → b ∈ rest → ranks_before a b) ∧
    length recs =
      if (0 <=? top_n)%Z then min (Z.to_nat top_n) (length (recs ++ rest)%list)
      else (length (recs ++ rest)%list - Z.to_nat (- top_n))%nat.
Proof.
  intros El.
  destruct (head_split top_n (sort_values
              (narrowed product_type min_rating min_price max_price df)))
    as (rest & Esplit & Hlen).
  eexists _, rest. split; [by apply filter_products_run|].
  pose proof (sort_values_Permutation
                (narrowed product_type min_rating min_price max_price df)) as Hperm.
  rewrite Esplit in Hperm.
  split; [done|]. split; [|split; [|split]].
  - intros r. rewrite Hperm. apply narrowed_elem.
  - rewrite Hperm. apply sublist_length, narrowed_sublist.
  - intros a b Ha Hb. eapply StronglySorted_app_1_elem_of; [|done..].
    rewrite <- Esplit. apply sort_values_Sorted.
  - by rewrite <- Esplit.
Qed.

Lemma recommendations_are_the_best_witness :
  ∃ recs rest : list row,
    filter_products_internal None None None None 2 shop =
      Ok (FilterOk (length recs) recs) ∧
    (recs ++ rest)%list ≡ₚ rows (narrowed None None None None (frame [laptop; kettle; returned_mug])) ∧
    (∀ r, r ∈ (recs ++ rest)%list ↔
          r ∈ rows (frame [laptop; kettle; returned_mug]) ∧
          passes None None None None r) ∧
    (length (recs ++ rest)%list ≤ length (rows (frame [laptop; kettle; returned_mug])))%nat ∧
    (∀ a b, a ∈ recs → b ∈ rest → ranks_before a b) ∧
    length recs =
      if (0 <=? 2)%Z then min (Z.to_nat 2) (length (recs ++ rest)%list)
      else (length (recs ++ rest)%list - Z.to_nat (- 2))%nat.
Proof.
  apply (recommendations_are_the_best None None None None 2 shop
           (frame [laptop; kettle; returned_mug])).
  vm_compute. reflexivity.
Defined.

(** X15.  Bounds on the price that exclude each other give a success with
    no recommendation, not an error. *)
Theorem contradictory_price_bounds `{FloatRepr}
    product_type min_rating low high top_n st df :
  _load_products_df st = Ok df →
  (high < low)%Q →
  filter_products_internal product_type min_rating (Some low) (Some high) top_n st =
    Ok (FilterOk 0 []).
Proof.
  intros El Hlt. rewrite (filter_products_run _ _ _ _ _ _ df El).
  destruct (rows (head top_n (sort_values
              (narrowed product_type min_rating (Some low) (Some high) df))))
    as [|r l] eqn:E; [done|].
  assert (r ∈ rows (head top_n (sort_values
              (narrowed product_type min_rating (Some low) (Some high) df)))) as Hr
    by (rewrite E; apply list_elem_of_here).
  apply head_elem in Hr. rewrite sort_values_elem, narrowed_elem in Hr.
  destruct Hr as (_ & _ & _ & Hlow & Hhigh).
  destruct (Hlow low eq_refl) as (p & Ep & Hp).
  destruct (Hhigh high eq_refl) as (p' & Ep' & Hp').
  rewrite Ep in Ep'. injection Ep' as <-. lra.
Qed.

Lemma contradictory_price_bounds_witness :
  filter_products_internal (Some "kitchen") None (Some 30%Q) (Some 20%Q) 5 shop =
    Ok (FilterOk 0 []).
Proof.
  apply (contradictory_price_bounds (Some "kitchen") None 30 20 5 shop
           (frame [laptop; kettle; returned_mug])).
  - vm_compute. reflexivity.
  - reflexivity.
Defined.

(** X16.  The filter takes the product type, and the search takes the
    keyword, up to the case of the letters and the blanks around them: the
    upper-cased and the trimmed argument give the result of the argument
    itself.  For the product type this needs something to be left after
    trimming. *)
Theorem filter_and_search_fold_case_and_trim `{FloatRepr} :
  (∀ t min_rating min_price max_price top_n st,
     filter_products_internal (Some (PyStr.upper t)) min_rating min_price max_price
       top_n st =
     filter_products_internal (Some t) min_rating min_price max_price top_n st) ∧
  (∀ t min_rating min_price max_price top_n st,
     PyStr.strip t ≠ "" →
     filter_products_internal (Some (PyStr.strip t)) min_rating min_price max_price
       top_n st =
     filter_products_internal (Some t) min_rating min_price max_price top_n st) ∧
  (∀ keyword st,
     search_product_by_name_internal (PyStr.upper keyword) st =
     search_product_by_name_internal keyword st) ∧
  (∀ keyword st,
     search_product_by_name_internal (PyStr.strip keyword) st =
     search_product_by_name_internal keyword st).
Proof.
  split; [|split; [|split]].
  - intros t min_rating min_price max_price top_n st.
    unfold filter_products_internal, given. rewrite truthy_upper.
    destruct (PyStr.truthy t); [|done].
    cbn [narrow_if]. by rewrite strip_upper, lower_upper.
  - intros t min_rating min_price max_price top_n st Hne.
    unfold filter_products_internal, given.
    destruct (PyStr.truthy (PyStr.strip t)) eqn:E1.
    + destruct (PyStr.truthy t) eqn:E2.
      * cbn [narrow_if]. by rewrite strip_idem.
      * apply truthy_false in E2. subst t. done.
    + by apply truthy_false in E1.
  - intros keyword st. unfold search_product_by_name_internal.
    by rewrite strip_upper, lower_upper.
  - intros keyword st. unfold search_product_by_name_internal.
    by rewrite strip_idem.
Qed.

Lemma filter_and_search_fold_case_and_trim_witness :
  filter_products_internal (Some (PyStr.strip " Kitchen ")) None None None 5 shop =
    filter_products_internal (Some " Kitchen ") None None None 5 shop.
Proof.
  apply (proj1 (proj2 filter_and_search_fold_case_and_trim)). discriminate.
Defined.

(** X17.  A checkout, successful or not, changes what the search and the
    filter return in the stock of the listed records at most: the same
    records are listed, in the same order and number, with every cell but
    the inventory count as before. *)
Theorem checkout_shows_in_stock_only `{FloatRepr}
    product_id quantity urandom st df res st' :
  _load_products_df st = Ok df →
  checkout_internal product_id quantity urandom st = (res, st') →
  (∀ keyword,
     search_same_but_stock (search_product_by_name_internal keyword st)
                           (search_product_by_name_internal keyword st')) ∧
  (∀ product_type min_rating min_price max_price top_n,
     filter_same_but_stock
       (filter_products_internal product_type min_rating min_price max_price top_n st)
       (filter_products_internal product_type min_rating min_price max_price top_n st')).
Proof.
  intros El E.
  assert (∃ df', _load_products_df st' = Ok df' ∧
                 Forall2 same_but_stock (rows df) (rows df')) as (df' & El' & HF).
  { destruct (checkout_store _ _ _ _ _ _ _ El E)
      as [[-> _]|(o & i & r & _ & _ & _ & _ & ->)].
    - exists df. split; [done|apply same_but_stock_all].
    - exists (sold i quantity df). split; [by eapply load_sold|apply sold_rows]. }
  split.
  - intros keyword. by apply (search_Forall2 _ _ _ df df').
  - intros product_type min_rating min_price max_price top_n.
    by apply (filter_Forall2 _ _ _ _ _ _ _ df df').
Qed.

Lemma checkout_shows_in_stock_only_witness :
  (∀ keyword,
     search_same_but_stock
       (search_product_by_name_internal keyword shop)
       (search_product_by_name_internal keyword
          (checkout_internal "p1" 3 [1]%N shop).2)) ∧
  (∀ product_type min_rating min_price max_price top_n,
     filter_same_but_stock
       (filter_products_internal product_type min_rating min_price max_price top_n shop)
       (filter_products_internal product_type min_rating min_price max_price top_n
          (checkout_internal "p1" 3 [1]%N shop).2)).
Proof.
  apply (checkout_shows_in_stock_only "p1" 3 [1]%N shop
           (frame [laptop; kettle; returned_mug])
           (checkout_internal "p1" 3 [1]%N shop).1).
  - vm_compute. reflexivity.
  - by destruct (checkout_internal "p1" 3 [1]%N shop).
Defined.

(** X18.  Without the catalog file every tool replies that the product
    database was not found at the configured path, the search also for a
    blank keyword; only a checkout of a quantity that is not positive is
    refused as invalid before the file is looked for. *)
Theorem tools_report_the_missing_database `{FloatRepr} `{Runtime} :
  (∀ keyword,
     search_product_by_name keyword None =
       Ok ("Product database not found at " +:+ PRODUCTS_CSV +:+ ".")) ∧
  (∀ product_type min_rating min_price max_price top_n,
     filter_products product_type min_rating min_price max_price top_n None =
       Ok ("Product database not found at " +:+ PRODUCTS_CSV +:+ ".")) ∧
  (∀ product_id,
     check_inventory product_id None =
       Ok ("Product database not found at " +:+ PRODUCTS_CSV +:+ ".")) ∧
  (∀ product_id quantity urandom,
     (0 < quantity)%Z →
     checkout_product product_id quantity urandom None =
       (Ok ("Product database not found at " +:+ PRODUCTS_CSV +:+ "."), None)) ∧
  (∀ product_id quantity urandom,
     (quantity ≤ 0)%Z →
     checkout_product product_id quantity urandom None =
       (Ok "Checkout failed: invalid_quantity", None)).
Proof.
  repeat split; try done.
  - intros product_id quantity urandom Hq. unfold checkout_product.
    by rewrite (checkout_load_raises _ _ _ _ FileNotFoundError).
  - intros product_id quantity urandom Hq. unfold checkout_product.
    by rewrite checkout_invalid.
Qed.

Lemma tools_report_the_missing_database_witness :
  checkout_product "p1" 1 [1]%N None =
    (Ok ("Product database not found at " +:+ PRODUCTS_CSV +:+ "."), None) ∧
  checkout_product "p1" 0 [1]%N None =
    (Ok "Checkout failed: invalid_quantity", None).
Proof.
  split.
  - apply (proj1 (proj2 (proj2 (proj2 tools_report_the_missing_database)))).
    reflexivity.
  - apply (proj2 (proj2 (proj2 (proj2 tools_report_the_missing_database)))).
    discriminate.
Defined.

(** X19.  The reply of the checkout tool tells what happened to the file:
    when it begins with the mark of success, a record the id resolves to had
    the quantity in stock and the file now holds the catalog with the
    quantity taken from it; when it does not, the file is as it was. *)
Theorem checkout_reply_tells_the_outcome `{FloatRepr} `{Runtime}
    product_id quantity urandom st reply st' :
  checkout_product product_id quantity urandom st = (Ok reply, st') →
  (String.prefix "✅ Checkout successful" reply = true →
     ∃ df i r, _load_products_df st = Ok df ∧ resolves product_id df i r ∧
       (0 < quantity)%Z ∧ (quantity ≤ inventory_count r)%Z ∧
       st' = Some (sold i quantity df)) ∧
  (String.prefix "✅ Checkout successful" reply = false → st' = st).
Proof.
  unfold checkout_product.
  destruct (checkout_internal product_id quantity urandom st) as [res st1] eqn:E.
  intros [= Er <-].
  destruct res as [[m|p|a|o]|e].
  5:{ split; [|intros _; by eapply checkout_failed_store].
      rewrite (failed_reply_has_no_mark (Raise e) reply I Er). discriminate. }
  4:{ split.
      - intros _. destruct (checkout_Ok_loaded _ _ _ _ _ _ E) as [df El].
        destruct (checkout_Ok_inv _ _ _ _ _ _ _ El E) as (i & r & ? & ? & ? & ?).
        eauto 10.
      - injection Er as <-. discriminate. }
  all: split; [|intros _; by eapply checkout_failed_store].
  all: injection Er as <-; discriminate.
Qed.

Lemma checkout_reply_tells_the_outcome_witness :
  (String.prefix "✅ Checkout successful"
     "✅ Checkout successful: 3 × Laptop (Order ID: ORD-01020304). Total: $300.00" = true →
     ∃ df i r, _load_products_df shop = Ok df ∧ resolves "p1" df i r ∧
       (0 < 3)%Z ∧ (3 ≤ inventory_count r)%Z ∧
       (checkout_product "p1" 3 [1; 2; 3; 4]%N shop).2 = Some (sold i 3 df)) ∧
  (String.prefix "✅ Checkout successful"
     "✅ Checkout successful: 3 × Laptop (Order ID: ORD-01020304). Total: $300.00" = false →
     (checkout_product "p1" 3 [1; 2; 3; 4]%N shop).2 = shop).
Proof.
  apply (checkout_reply_tells_the_outcome "p1" 3 [1; 2; 3; 4]%N shop).
  vm_compute. reflexivity.
Defined.

(** X20.  With [top_n] 0 the filter tool replies that no products match the
    given filters, whatever the filters are and however many records pass
    them. *)
Theorem filter_tool_with_top_n_zero `{FloatRepr} `{Runtime}
    product_type min_rating min_price max_price st df :
  _load_products_df st = Ok df →
  filter_products product_type min_rating min_price max_price 0 st =
    Ok "No products match the given filters.".
Proof.
  intros El. unfold filter_products.
  by rewrite (filter_products_run _ _ _ _ _ _ df El).
Qed.

Lemma filter_tool_with_top_n_zero_witness :
  filter_products None None None None 0 shop =
    Ok "No products match the given filters.".
Proof.
  apply (filter_tool_with_top_n_zero None None None None shop
           (frame [laptop; kettle; returned_mug])).
  vm_compute. reflexivity.
Defined.

(** X21.  For a keyword that is empty or all blanks and a file that loads,
    the search tool replies with the error text of the search followed by a
    second full stop and a blank, the place of the message that this result
    does not have. *)
Theorem search_tool_on_blank_keyword `{FloatRepr} `{Runtime} keyword st df :
  _load_products_df st = Ok df →
  PyStr.all_chars PyStr.is_space keyword = true →
  search_product_by_name keyword st = Ok "Error: Empty search query.. ".
Proof.
  intros El Hsp. unfold search_product_by_name, search_product_by_name_internal.
  rewrite El, bind_Ok_l. apply strip_empty in Hsp. by rewrite Hsp.
Qed.

Lemma search_tool_on_blank_keyword_witness :
  search_product_by_name "  " shop = Ok "Error: Empty search query.. ".
Proof.
  apply (search_tool_on_blank_keyword "  " shop (frame [laptop; kettle; returned_mug])).
  - vm_compute. reflexivity.
  - reflexivity.
Defined.



(** X23.  The answer of a turn is the concatenation, trimmed, of every tool
    message and every closing reply that the stream has brought up to its
    last closing reply: what the tools said is part of the answer, and what
    follows the last closing reply is not. *)
Theorem answer_includes_tool_messages `{Json} events before closing after reply :
  concat events = (before ++ closing :: after)%list →
  final_reply closing = Some reply →
  (∀ q, q ∈ after → final_reply q = None) →
  answer events = PyStr.strip (join "" (parts_of before ++ [reply])%list).
Proof.
  intros E Hc Hafter. unfold answer. rewrite E, foldl_app. cbn [foldl].
  destruct (foldl answer_payload ([], "") before) as [parts final] eqn:Eb.
  rewrite (answer_payload_final parts final closing reply Hc).
  rewrite answer_fold_not_final by done.
  pose proof (answer_fold_parts before [] "") as Hp. rewrite Eb in Hp.
  cbn in Hp. by rewrite Hp.
Qed.

Lemma answer_includes_tool_messages_witness :
  answer [[[AIMessage "" ["filter_products"]]];
          [[ToolMessage "Top 1 recommendation(s):"]];
          [[AIMessage " Here you go. " []]]] =
  PyStr.strip
    (join "" (parts_of [[AIMessage "" ["filter_products"]];
                        [ToolMessage "Top 1 recommendation(s):"]] ++
              [" Here you go. "])%list).
Proof.
  apply (answer_includes_tool_messages
           [[[AIMessage "" ["filter_products"]]];
            [[ToolMessage "Top 1 recommendation(s):"]];
            [[AIMessage " Here you go. " []]]]
           [[AIMessage "" ["filter_products"]];
            [ToolMessage "Top 1 recommendation(s):"]]
           [AIMessage " Here you go. " []] [] " Here you go. ").
  - reflexivity.
  - reflexivity.
  - intros q Hq. by apply elem_of_nil in Hq.
Defined.

(** X24.  When no payload of the stream ends with a closing reply, an AI
    message without tool calls, the answer is the empty string, whatever the
    tools have said. *)
Theorem answer_is_empty_without_closing_reply `{Json} events :
  (∀ q, q ∈ concat events → final_reply q = None) →
  answer events = "".
Proof. intros Hq. unfold answer. by rewrite answer_fold_not_final. Qed.

Lemma answer_is_empty_without_closing_reply_witness :
  answer [[[AIMessage "" ["check_inventory"]]];
          [[ToolMessage "Kettle — in stock (3 units). Price: $25.00, Rating: 4.5."]]] = "".
Proof.
  apply (answer_is_empty_without_closing_reply
           [[[AIMessage "" ["check_inventory"]]];
            [[ToolMessage "Kettle — in stock (3 units). Price: $25.00, Rating: 4.5."]]]).
  intros q Hq. cbn in Hq.
  repeat (apply elem_of_cons in Hq as [->|Hq]; [reflexivity|]).
  by apply elem_of_nil in Hq.
Defined.

(** X25.  After any number of answered turns, starting from an empty
    memory, the memory of the chat page holds the last five exchanges of the
    conversation, in order, and never more than five. *)
Theorem memory_holds_last_five_exchanges (turns : list (string * string)) :
  foldl remember [] turns = last_n 5 ((λ t, exchange t.1 t.2) <$> turns) ∧
  (length (foldl remember [] turns) ≤ 5)%nat.
Proof.
  assert (foldl remember [] turns = last_n 5 ((λ t, exchange t.1 t.2) <$> turns)) as E.
  { induction turns as [|t turns IH] using rev_ind; [done|].
    rewrite foldl_app. cbn [foldl]. rewrite IH. unfold remember.
    rewrite fmap_app. cbn [fmap list_fmap]. apply last_n_snoc. lia. }
  split; [done|]. rewrite E, last_n_length. lia.
Qed.
